(** * teachassist-api: the grade-report scraper of [pages/api/getCourses.ts]

    A shallow embedding of the request handler and of the text parsers it is
    built from, followed by the properties of the scraper that were checked
    against it.

    Conventions of the embedding.
    - A JavaScript string is the list of its UTF-16 code units ([list N]).
    - [arr[i]] is stdpp's list lookup [arr !! i]; [None] is [undefined].
    - A property access on [undefined] raises a [TypeError]; code that can
      raise lives in the [completion] monad.
    - cheerio and node-fetch-cookies are external libraries: the results of
      the selectors the handler runs, and the portal's answers, are inputs. *)

From Stdlib Require Import NArith ZArith Lia Ascii String.
From stdpp Require Import base option list gmap strings.

Open Scope N_scope.
Open Scope nat_scope.

(* ===================================================================== *)
(** * JavaScript strings                                                  *)
(* ===================================================================== *)

Abbreviation jsstring := (list N).

(** A string literal of the source, as code units. *)
Definition lit (s : string) : jsstring :=
  (fun a => N_of_ascii a) <$> list_ascii_of_string s.

Module JsString.

(** [s.startsWith(p)] *)
Fixpoint startsWith (p s : jsstring) : bool :=
  match p, s with
  | [], _ => true
  | _ :: _, [] => false
  | a :: p', b :: s' => (a =? b)%N && startsWith p' s'
  end.

(** The text before and the text after the first occurrence of [sep]. *)
Fixpoint cut (sep s : jsstring) {struct s} : option (jsstring * jsstring) :=
  if startsWith sep s then Some ([], drop (length sep) s)
  else match s with
       | [] => None
       | c :: s' =>
           match cut sep s' with
           | Some (b, a) => Some (c :: b, a)
           | None => None
           end
       end.

(** The text before the first occurrence of [sep]; all of it when there
    is none.  This is what [s.split(sep)[0]] turns out to be. *)
Definition before (sep s : jsstring) : jsstring :=
  match cut sep s with Some (b, _) => b | None => s end.

(** [s.includes(p)] *)
Definition includes (p s : jsstring) : bool :=
  match cut p s with Some _ => true | None => false end.

(** [s.split(sep)] for a non-empty separator: every cut consumes at least
    one code unit, so [length s] rounds are enough. *)
Fixpoint split_go (fuel : nat) (sep s : jsstring) : list jsstring :=
  match fuel with
  | O => [s]
  | S n =>
      match cut sep s with
      | None => [s]
      | Some (b, a) => b :: split_go n sep a
      end
  end.

(** [s.split(sep)]; the empty separator splits into code units. *)
Definition split (sep s : jsstring) : list jsstring :=
  match sep with
  | [] => (fun c => [c]) <$> s
  | _ :: _ => split_go (length s) sep s
  end.

(** [parts.join(glue)] *)
Fixpoint join (glue : jsstring) (parts : list jsstring) : jsstring :=
  match parts with
  | [] => []
  | [p] => p
  | p :: ps => p ++ glue ++ join glue ps
  end.

(** [s.replaceAll(pat, rep)] with a string pattern. *)
Definition replaceAll (pat rep s : jsstring) : jsstring :=
  join rep (split pat s).

(** [s.replace(pat, rep)] with a string pattern: the first occurrence. *)
Definition replace (pat rep s : jsstring) : jsstring :=
  match cut pat s with
  | Some (b, a) => b ++ rep ++ a
  | None => s
  end.

(** ECMAScript WhiteSpace and LineTerminator code points; all of them are
    single code units. *)
Definition isWhiteSpace (c : N) : bool :=
  ((c =? 9) || (c =? 10) || (c =? 11) || (c =? 12) || (c =? 13)
   || (c =? 32) || (c =? 160) || (c =? 5760)
   || ((8192 <=? c) && (c <=? 8202))
   || (c =? 8232) || (c =? 8233) || (c =? 8239) || (c =? 8287)
   || (c =? 12288) || (c =? 65279))%N.

Fixpoint trimStart (s : jsstring) : jsstring :=
  match s with
  | c :: s' => if isWhiteSpace c then trimStart s' else s
  | [] => []
  end.

Definition trimEnd (s : jsstring) : jsstring :=
  reverse (trimStart (reverse s)).

(** [s.trim()] *)
Definition trim (s : jsstring) : jsstring := trimEnd (trimStart s).

(** The empty string is the only falsy string. *)
Definition truthy (s : jsstring) : bool :=
  match s with [] => false | _ :: _ => true end.

(** [ToString(v)] of a value that is a string or [undefined]. *)
Definition toString (v : option jsstring) : jsstring :=
  match v with Some s => s | None => lit "undefined" end.

(** [v || d] for a value that is a string or [undefined]. *)
Definition orElse (v : option jsstring) (d : jsstring) : jsstring :=
  match v with
  | Some s => if truthy s then s else d
  | None => d
  end.

End JsString.

(* ===================================================================== *)
(** * JavaScript numbers, as far as [parseFloat] produces them            *)
(* ===================================================================== *)

(** [Decimal neg m e] is the decimal literal that was read: the mathematical
    value [(-1)^neg * m * 10^e].  The source never computes with the numbers
    it parses, it only stores them and tests them for truthiness, so the
    literal is kept exact and the one place where the nearest double matters,
    the test against zero, is [isZero] below. *)
Inductive number :=
| NaN
| Infinity (neg : bool)
| Decimal (neg : bool) (m : N) (e : Z).

Module JsNumber.
Import JsString.

Definition isDigit (c : N) : bool := ((48 <=? c) && (c <=? 57))%N.

(** The longest run of decimal digits at the front, and what follows it. *)
Fixpoint digitRun (s : jsstring) : jsstring * jsstring :=
  match s with
  | c :: s' =>
      if isDigit c then let '(ds, r) := digitRun s' in (c :: ds, r)
      else ([], s)
  | [] => ([], [])
  end.

Definition digitsValue (ds : jsstring) : N :=
  foldl (fun acc d => 10 * acc + (d - 48))%N 0%N ds.

(** An optional [+] or [-]. *)
Definition readSign (s : jsstring) : bool * jsstring :=
  match s with
  | 45%N :: r => (true, r)
  | 43%N :: r => (false, r)
  | _ => (false, s)
  end.

(** ExponentPart, when one follows; an [e] without digits is not part of
    the literal. *)
Definition readExponent (s : jsstring) : Z :=
  match s with
  | c :: r =>
      if ((c =? 101) || (c =? 69))%N then
        let '(neg, r') := readSign r in
        match fst (digitRun r') with
        | [] => 0%Z
        | ds => if neg then (- Z.of_N (digitsValue ds))%Z
                else Z.of_N (digitsValue ds)
        end
      else 0%Z
  | [] => 0%Z
  end.

(** [parseFloat(s)]: leading white space is skipped, then the longest
    prefix that is a StrDecimalLiteral is read; [NaN] when there is none. *)
Definition parseFloat (s : jsstring) : number :=
  let '(neg, r) := readSign (trimStart s) in
  if startsWith (lit "Infinity") r then Infinity neg
  else
    let '(int, r1) := digitRun r in
    let '(frac, r2) :=
      match r1 with
      | 46%N :: r' => digitRun r'
      | _ => ([], r1)
      end in
    match int, frac with
    | [], [] => NaN
    | _, _ =>
        Decimal neg (digitsValue (int ++ frac))
                (readExponent r2 - Z.of_nat (length frac))
    end.

(** Is the Number value of the literal [+0] or [-0]?  A literal rounds to
    zero exactly when its magnitude is at most [2^-1075], half of the least
    subnormal double (the tie goes to the even significand, zero). *)
Definition isZero (x : number) : bool :=
  match x with
  | Decimal _ m e =>
      if (0 <=? e)%Z then (m =? 0)%N
      else (Z.of_N m * 2 ^ 1075 <=? 10 ^ (- e))%Z
  | _ => false
  end.

(** ToBoolean: [NaN], [+0] and [-0] are the falsy numbers. *)
Definition truthy (x : number) : bool :=
  match x with
  | NaN => false
  | _ => negb (isZero x)
  end.

Definition ofN (n : N) : number := Decimal false n 0.

End JsNumber.

(* ===================================================================== *)
(** * Exceptions                                                          *)
(* ===================================================================== *)

Inductive exn :=
| TypeError                         (* a property read on [undefined] *)
| FetchError (message : jsstring).  (* a rejected request *)

Inductive completion (A : Type) :=
| Normal (a : A)
| Throw (e : exn).
Arguments Normal {A} a.
Arguments Throw {A} e.

#[global] Instance completion_ret : MRet completion := fun _ a => Normal a.
#[global] Instance completion_bind : MBind completion := fun _ _ k c =>
  match c with
  | Normal a => k a
  | Throw e => Throw e
  end.

(** Reading a property or calling a method of [v]: a [TypeError] when [v] is
    [undefined]. *)
Definition deref {A} (v : option A) : completion A :=
  match v with
  | Some a => Normal a
  | None => Throw TypeError
  end.

(** [try { body } catch { handler }] *)
Definition tryCatch {A} (body : completion A) (handler : exn -> A) : A :=
  match body with
  | Normal a => a
  | Throw e => handler e
  end.

(* ===================================================================== *)
(** * The data model of the handler                                       *)
(* ===================================================================== *)

(** [number | "N/A"] *)
Inductive markValue :=
| NA
| Num (x : number).

(** [v || "N/A"] *)
Definition orNA (v : markValue) : markValue :=
  match v with
  | NA => NA
  | Num x => if JsNumber.truthy x then Num x else NA
  end.

Module Mark.
Record t := mk { get : number; total : number; weight : number; finished : bool }.
End Mark.

Module Assignment.
(** The category entries are the properties [KU], [A], [T], [C], [O], [F]
    that the parser sets by name; each holds a one-element array. *)
Record t := mk {
  name : jsstring;
  feedback : option jsstring;
  categories : gmap string (list Mark.t);
}.
End Assignment.

Module Weights.
Record t := mk { W : number; CW : number; SA : number }.
End Weights.

Module Course.
Record t := mk {
  code : jsstring;
  name : jsstring;
  block : jsstring;
  room : jsstring;
  start_time : jsstring;
  end_time : jsstring;
  dropped_time : jsstring;
  overall_mark : markValue;
  isFinal : bool;
  isMidterm : bool;
  link : option jsstring;
  assignments : list Assignment.t;
  weight_table : gmap string Weights.t;
}.
End Course.

(* ===================================================================== *)
(** * [parseOverallMark]                                                  *)
(* ===================================================================== *)

Module Overall.
Record t := mk { mark : markValue; isFinal : bool; isMidterm : bool }.
End Overall.

Section ParseOverallMark.
Import JsString JsNumber.

(** [mark.split(token)[1].split("%")[0]], handed to [parseFloat]. *)
Definition numberAfter (token mark : jsstring) : completion number :=
  rest ← deref (split token mark !! 1);
  Normal (parseFloat (toString (split (lit "%") rest !! 0))).

Definition parseOverallMark (mark : jsstring) : completion Overall.t :=
  let mark := replaceAll (lit " ") (lit "") mark in
  if includes (lit "FINAL") mark then
    x ← numberAfter (lit "FINALMARK:") mark;
    Normal (Overall.mk (Num x) true false)
  else if includes (lit "currentmark") mark then
    x ← numberAfter (lit "currentmark=") mark;
    Normal (Overall.mk (Num x) false false)
  else if includes (lit "MIDTERM") mark then
    x ← numberAfter (lit "MIDTERMMARK:") mark;
    Normal (Overall.mk (Num x) false true)
  else
    Normal (Overall.mk NA false false).

End ParseOverallMark.

(* ===================================================================== *)
(** * What the handler reads of the pages                                 *)
(* ===================================================================== *)

(** A row selected by [$(".green_border_message div table tr")]. *)
Module ListRow.
Record t := mk {
  href : option jsstring;   (* [$(elem).find("a").attr("href")] *)
  text : jsstring;          (* [$(elem).text()] *)
}.
End ListRow.

(** A row visited by [$('table[width="100%"]').children().children()]. *)
Module DetailRow.
Record t := mk {
  text : jsstring;               (* [$(elem).text()] *)
  rowspan2 : jsstring;           (* [$(elem).find('td[rowspan="2"]').text()] *)
  bgcolor : string -> jsstring;  (* [$(elem).find(`td[bgcolor="${c}"]`).text()] *)
}.
End DetailRow.

Module DetailPage.
Record t := mk {
  rows : list DetailRow.t;
  (* the texts of
     [$('table[cellpadding="5"]').find(`tr[bgcolor="${c}"]`).children()] *)
  weightCells : string -> list jsstring;
}.
End DetailPage.

Definition newline : jsstring := [10%N].
Definition tab : jsstring := [9%N].

(* ===================================================================== *)
(** * The course list                                                     *)
(* ===================================================================== *)

Section CourseList.
Import JsString JsNumber.

(** [courseText.map(item => item.trim()).filter(item => item.length > 0)] *)
Definition compact (courseText : list jsstring) : list jsstring :=
  filter (fun item : jsstring => 0 < length item) (trim <$> courseText).

(** The body of the [try] block run for one row: [Normal None] when the row
    is passed over, [Normal (Some c)] when [c] is pushed. *)
Definition courseRow (elem : ListRow.t) : completion (option Course.t) :=
  let link := ListRow.href elem in
  let courseText := split newline (ListRow.text elem) in
  line1 ← deref (courseText !! 1);
  if negb (includes (lit "Course Name") line1) then
    let filteredCourse := compact courseText in
    if bool_decide (3 < length filteredCourse) then
      overall ← parseOverallMark (orElse (filteredCourse !! 4) (lit ""));
      f3 ← deref (filteredCourse !! 3);
      times ←
        (if includes (lit "Dropped on") f3 then
           e ← deref (split (lit "Dropped") f3 !! 0);
           d ← deref (split (lit "Dropped on") f3 !! 1);
           Normal (trim e, trim d)
         else Normal (trim f3, lit ""));
      f0 ← deref (filteredCourse !! 0);
      f1 ← deref (filteredCourse !! 1);
      f2 ← deref (filteredCourse !! 2);
      Normal (Some {|
        Course.code := orElse (split (lit " : ") f0 !! 0) (lit "Unknown Code");
        Course.name := orElse (split (lit " : ") f0 !! 1) (lit "Unknown Course");
        Course.block :=
          orElse (split (lit " ") (replace (lit "Block: P") (lit "") f1) !! 0)
                 (lit "N/A");
        Course.room := orElse (split (lit "rm. ") f1 !! 1) (lit "Unknown Room");
        Course.start_time := orElse (split (lit " ") f2 !! 0) (lit "");
        Course.end_time := times.1;
        Course.dropped_time := times.2;
        Course.overall_mark := orNA (Overall.mark overall);
        Course.isFinal := Overall.isFinal overall;
        Course.isMidterm := Overall.isMidterm overall;
        Course.link := link;
        Course.assignments := [];
        Course.weight_table := ∅;
      |})
    else Normal None
  else Normal None.

(** One call of the [each] callback: a row that raises is logged and
    contributes nothing. *)
Definition courseStep (courses : list Course.t) (elem : ListRow.t)
  : list Course.t :=
  tryCatch
    (c ← courseRow elem;
     Normal (match c with Some c => courses ++ [c] | None => courses end))
    (fun _ => courses).

Definition extractCourses (rows : list ListRow.t) : list Course.t :=
  foldl courseStep [] rows.

(** Names for two values of [courseRow], used to state its properties:
    [filteredCourse], and the argument of [parseOverallMark]. *)
Definition courseLines (elem : ListRow.t) : list jsstring :=
  compact (split newline (ListRow.text elem)).

Definition markText (elem : ListRow.t) : jsstring :=
  orElse (courseLines elem !! 4) (lit "").

End CourseList.

(* ===================================================================== *)
(** * The assignment table                                                *)
(* ===================================================================== *)

Section AssignmentTable.
Import JsString JsNumber.

Definition assignmentColors : list (string * string) :=
  [("KU", "ffffaa"); ("A", "ffd490"); ("T", "c0fea4");
   ("C", "afafff"); ("O", "eeeeee"); ("F", "#dedede")]%string.

(** The object literal inside the [try]. *)
Definition parseMark (category : jsstring) : completion Mark.t :=
  let get := parseFloat (toString (split (lit " / ") category !! 0)) in
  afterSlash ← deref (split (lit " / ") category !! 1);
  let total := parseFloat (toString (split (lit " = ") afterSlash !! 0)) in
  afterWeight ← deref (split (lit "weight=") category !! 1);
  let weight := parseFloat (toString (split newline afterWeight !! 0)) in
  Normal (Mark.mk get total weight (negb (includes (lit "finished") category))).

Definition placeholder : Mark.t := Mark.mk (ofN 0) (ofN 0) (ofN 0) true.

(** The text the handler parses for a category of a row. *)
Definition categoryText (elem : DetailRow.t) (color : string) : jsstring :=
  trim (replaceAll tab (lit "") (DetailRow.bgcolor elem color)).

(** The entry stored for a category text that is not empty. *)
Definition categoryEntry (category : jsstring) : list Mark.t :=
  [tryCatch (parseMark category) (fun _ => placeholder)].

(** One call of the [forEach] callback over the colour table. *)
Definition categoryStep (elem : DetailRow.t) (assignment : Assignment.t)
    (item : string * string) : Assignment.t :=
  let category := categoryText elem item.2 in
  if JsString.truthy category then
    Assignment.mk (Assignment.name assignment) (Assignment.feedback assignment)
      (<[item.1 := categoryEntry category]> (Assignment.categories assignment))
  else assignment.

Definition assignmentRow (elem : DetailRow.t) : Assignment.t :=
  foldl (categoryStep elem)
    (Assignment.mk (replaceAll tab (lit "") (DetailRow.rowspan2 elem)) None ∅)
    assignmentColors.

Definition setFeedback (text : jsstring) (a : Assignment.t) : Assignment.t :=
  Assignment.mk (Assignment.name a) (Some text) (Assignment.categories a).

(** One call of the [each] callback over the rows; the state is [counter]
    and [assignments]. *)
Definition rowStep (st : nat * list Assignment.t) (elem : DetailRow.t)
  : completion (nat * list Assignment.t) :=
  let counter := S st.1 in
  let assignments := st.2 in
  if bool_decide (counter mod 2 = 0) then
    if bool_decide (2 < counter) then
      let last := length assignments - 1 in
      a ← deref (assignments !! last);
      Normal (counter,
            <[last := setFeedback (trim (DetailRow.text elem)) a]> assignments)
    else Normal (counter, assignments)
  else Normal (counter, assignments ++ [assignmentRow elem]).

Fixpoint eachRow (st : nat * list Assignment.t) (rows : list DetailRow.t)
  : completion (nat * list Assignment.t) :=
  match rows with
  | [] => Normal st
  | elem :: rows' => st' ← rowStep st elem; eachRow st' rows'
  end.

Definition parseAssignments (rows : list DetailRow.t)
  : completion (list Assignment.t) :=
  st ← eachRow (1, []) rows; Normal st.2.

(** The reading of the table that the loop is meant to implement: rows
    taken two at a time, an assignment row and then, when there is one,
    the row holding its feedback. *)
Fixpoint paired (rows : list DetailRow.t) : list Assignment.t :=
  match rows with
  | [] => []
  | [elem] => [assignmentRow elem]
  | elem :: note :: rows' =>
      setFeedback (trim (DetailRow.text note)) (assignmentRow elem)
      :: paired rows'
  end.

End AssignmentTable.

(* ===================================================================== *)
(** * The weight table                                                    *)
(* ===================================================================== *)

Section WeightTable.
Import JsString JsNumber.

Definition weightColors : list (string * string) :=
  [("KU", "ffffaa"); ("A", "ffd490"); ("T", "c0fea4");
   ("C", "afafff"); ("O", "eeeeee"); ("F", "cccccc")]%string.

(** [weights[0]?.includes("Final")] *)
Definition isFinalRow (weights : list jsstring) : bool :=
  match weights !! 0 with
  | Some w => includes (lit "Final") w
  | None => false
  end.

(** The body of the [try] block, up to the assignment into the table. *)
Definition weightEntry (weights : list jsstring) : completion Weights.t :=
  let index := if isFinalRow weights then 0 else 1 in
  let weights :=
    if isFinalRow weights then <[0 := lit "0%"]> weights else weights in
  w ← deref (weights !! index);
  cw ← deref (weights !! (index + 1));
  sa ← deref (weights !! (index + 2));
  Normal (Weights.mk (parseFloat (replace (lit "%") (lit "") w))
                   (parseFloat (replace (lit "%") (lit "") cw))
                   (parseFloat (replace (lit "%") (lit "") sa))).

(** The trimmed cell texts collected for a colour. *)
Definition collectWeights (page : DetailPage.t) (color : string)
  : list jsstring :=
  trim <$> DetailPage.weightCells page ("#" ++ color)%string.

Definition weightStep (page : DetailPage.t) (table : gmap string Weights.t)
    (item : string * string) : gmap string Weights.t :=
  tryCatch
    (e ← weightEntry (collectWeights page item.2);
     Normal (<[item.1 := e]> table))
    (fun _ => table).

Definition parseWeightTable (page : DetailPage.t) : gmap string Weights.t :=
  foldl (weightStep page) ∅ weightColors.

End WeightTable.

(* ===================================================================== *)
(** * The handler                                                         *)
(* ===================================================================== *)

Module Request.
(** The request as the handler reads it: [req.method] and the two fields
    of [req.body], each a string or missing. *)
Record t := mk {
  method : jsstring;
  username : option jsstring;
  password : option jsstring;
}.
End Request.

(** A call [cookieFetch(cookieJar, url, { method, body })]. *)
Module Fetch.
Record t := mk { url : jsstring; method : jsstring; body : jsstring }.
End Fetch.

(** The JSON sent back under the key [response]. *)
Inductive body :=
| ErrorBody (error : jsstring)          (* [{ error: "..." }] *)
| ErrorMessage (e : exn)                (* [{ error: err.message }] *)
| CoursesBody (courses : list Course.t).

Record response := Reply { status : nat; json : body }.

Definition loginUrl (username password : jsstring) : jsstring :=
  lit "https://ta.yrdsb.ca/live/index.php?username=" ++ username
  ++ lit "&password=" ++ password ++ lit "&submit=Login&subject_id=0".

Definition post (url : jsstring) : Fetch.t :=
  Fetch.mk url (lit "POST") (lit "credentials").

(** [`!v`] for a field of the request body. *)
Definition missing (v : option jsstring) : bool :=
  match v with
  | Some s => negb (JsString.truthy s)
  | None => true
  end.

(** [courses[i].assignments = ...; courses[i].weight_table = ...] *)
Definition withDetail (c : Course.t) (assignments : list Assignment.t)
    (weight_table : gmap string Weights.t) : Course.t :=
  {| Course.code := Course.code c; Course.name := Course.name c;
     Course.block := Course.block c; Course.room := Course.room c;
     Course.start_time := Course.start_time c;
     Course.end_time := Course.end_time c;
     Course.dropped_time := Course.dropped_time c;
     Course.overall_mark := Course.overall_mark c;
     Course.isFinal := Course.isFinal c;
     Course.isMidterm := Course.isMidterm c;
     Course.link := Course.link c;
     Course.assignments :=
       if bool_decide (0 < length assignments) then assignments else [];
     Course.weight_table :=
       if bool_decide (0 < size weight_table) then weight_table else ∅ |}.

Section Handler.
Import JsString.

(** cheerio: the rows and cells its selectors find in a page. *)
Variable loadCourseList : jsstring -> list ListRow.t.
Variable loadDetail : jsstring -> DetailPage.t.

(** node-fetch-cookies and the portal behind it: the state covers the
    cookie jar; the answer is the text of the page, or a rejection. *)
Variable Portal : Type.
Variable cookieFetch : Portal -> Fetch.t -> Portal * completion jsstring.

(** The state of one call: the portal, and the requests issued so far. *)
Record session := Session { portal : Portal; requests : list Fetch.t }.

Definition fetchText (q : Fetch.t) (s : session)
  : session * completion jsstring :=
  let '(p, r) := cookieFetch (portal s) q in
  (Session p (requests s ++ [q]), r).

Definition detailUrl (c : Course.t) : jsstring :=
  lit "https://ta.yrdsb.ca/live/students/" ++ toString (Course.link c).

(** The body of the [for] loop at index [i]. *)
Definition courseDetail (i : nat) (courses : list Course.t) (s : session)
  : session * completion (list Course.t) :=
  match courses !! i with
  | None => (s, Throw TypeError)
  | Some c =>
      let '(s', r) := fetchText (post (detailUrl c)) s in
      match r with
      | Throw e => (s', Throw e)
      | Normal courseText =>
          let page := loadDetail courseText in
          match parseAssignments (DetailPage.rows page) with
          | Throw e => (s', Throw e)
          | Normal assignments =>
              let weight_table := parseWeightTable page in
              (s', Normal (<[i := withDetail c assignments weight_table]>
                             courses))
          end
      end
  end.

(** [for (let i = ...; i < courses.length; i++)], with [n] indices left. *)
Fixpoint detailLoop (n i : nat) (courses : list Course.t) (s : session)
  : session * completion (list Course.t) :=
  match n with
  | O => (s, Normal courses)
  | S n' =>
      let '(s', r) := courseDetail i courses s in
      match r with
      | Throw e => (s', Throw e)
      | Normal courses' => detailLoop n' (S i) courses' s'
      end
  end.

(** The course list of the landing page, then the detail of each course. *)
Definition coursePages (textData : jsstring) (s : session)
  : session * completion response :=
  let courses := extractCourses (loadCourseList textData) in
  let '(s', r) := detailLoop (length courses) 0 courses s in
  match r with
  | Throw e => (s', Throw e)
  | Normal courses' => (s', Normal (Reply 200 (CoursesBody courses')))
  end.

(** The body of the outer [try]. *)
Definition fetchGrades (username password : jsstring) (s : session)
  : session * completion response :=
  let '(s', r) := fetchText (post (loginUrl username password)) s in
  match r with
  | Throw e => (s', Throw e)
  | Normal textData =>
      if includes (lit "Invalid Login") textData then
        (s', Normal (Reply 401 (ErrorBody (lit "Invalid Login"))))
      else if includes (lit "Access Denied") textData then
        (s', Normal (Reply 403 (ErrorBody (lit "Access Denied"))))
      else if includes (lit "Session Expired") textData then
        (s', Normal (Reply 401 (ErrorBody (lit "Session Expired"))))
      else coursePages textData s'
  end.

(** [handler(req, res)], after the CORS middleware: the final session and
    the reply, if one is sent. *)
Definition handler (req : Request.t) (p : Portal)
  : session * option response :=
  let s := Session p [] in
  if missing (Request.username req) || missing (Request.password req) then
    (s, Some (Reply 400 (ErrorBody (lit "Invalid username or password"))))
  else if bool_decide (Request.method req = lit "POST") then
    let '(s', r) :=
      fetchGrades (toString (Request.username req))
                  (toString (Request.password req)) s in
    (s', Some (tryCatch r (fun e => Reply 500 (ErrorMessage e))))
  else (s, None).

End Handler.

(* ===================================================================== *)
(** * The revised handler                                                 *)
(* ===================================================================== *)

(** The repository holds a second, later copy of the handler.  It differs
    from the one above in how it extracts numbers (regular expressions with
    a guard instead of positional splits), in passing over the courses that
    have no link, and in defaulting missing weight cells.  The definitions
    that differ are restated here; the others are shared. *)
Module Revised.
Import JsString JsNumber.

Definition isNumberChar (c : N) : bool := (isDigit c || (c =? 46))%N.

(** The longest run of [[\d.]] at the front, and what follows it. *)
Fixpoint numberRun (s : jsstring) : jsstring * jsstring :=
  match s with
  | c :: s' =>
      if isNumberChar c then let '(ds, r) := numberRun s' in (c :: ds, r)
      else ([], s)
  | [] => ([], [])
  end.

(** A match of [/token([\d.]+)%/] anchored at the front of [s]: the run is
    greedy and [%] is not in the class, so the run is the longest one. *)
Definition matchHere (token s : jsstring) : option jsstring :=
  if startsWith token s then
    match numberRun (drop (length token) s) with
    | ((_ :: _) as run, 37%N :: _) => Some run
    | _ => None
    end
  else None.

(** [s.match(/token([\d.]+)%/)], reduced to its capture group: the
    leftmost match. *)
Fixpoint matchNumber (token s : jsstring) {struct s} : option jsstring :=
  match matchHere token s with
  | Some g => Some g
  | None =>
      match s with
      | [] => None
      | _ :: s' => matchNumber token s'
      end
  end.

Definition parseOverallMark (mark : jsstring) : Overall.t :=
  let cleanedMark := replaceAll (lit " ") (lit "") mark in
  let result := Overall.mk NA false false in
  if includes (lit "FINAL") cleanedMark then
    match matchNumber (lit "FINALMARK:") cleanedMark with
    | Some g => Overall.mk (Num (parseFloat g)) true false
    | None => result
    end
  else if includes (lit "currentmark") cleanedMark then
    match matchNumber (lit "currentmark=") cleanedMark with
    | Some g => Overall.mk (Num (parseFloat g)) false false
    | None => result
    end
  else if includes (lit "MIDTERM") cleanedMark then
    match matchNumber (lit "MIDTERMMARK:") cleanedMark with
    | Some g => Overall.mk (Num (parseFloat g)) false true
    | None => result
    end
  else result.

(** [!courseText[1]?.includes("Course Name")] *)
Definition notHeader (courseText : list jsstring) : bool :=
  match courseText !! 1 with
  | Some line1 => negb (includes (lit "Course Name") line1)
  | None => true
  end.

Definition courseRow (elem : ListRow.t) : completion (option Course.t) :=
  let link := ListRow.href elem in
  let courseText := split newline (ListRow.text elem) in
  if notHeader courseText then
    let filteredCourse := compact courseText in
    if bool_decide (3 < length filteredCourse) then
      let overall := parseOverallMark (orElse (filteredCourse !! 4) (lit "")) in
      f3 ← deref (filteredCourse !! 3);
      times ←
        (if includes (lit "Dropped on") f3 then
           e ← deref (split (lit "Dropped") f3 !! 0);
           d ← deref (split (lit "Dropped on") f3 !! 1);
           Normal (trim e, trim d)
         else Normal (trim f3, lit ""));
      f0 ← deref (filteredCourse !! 0);
      f1 ← deref (filteredCourse !! 1);
      f2 ← deref (filteredCourse !! 2);
      Normal (Some {|
        Course.code := orElse (split (lit " : ") f0 !! 0) (lit "Unknown Code");
        Course.name := orElse (split (lit " : ") f0 !! 1) (lit "Unknown Course");
        Course.block :=
          orElse (split (lit " ") (replace (lit "Block: P") (lit "") f1) !! 0)
                 (lit "N/A");
        Course.room := orElse (split (lit "rm. ") f1 !! 1) (lit "Unknown Room");
        Course.start_time := orElse (split (lit " ") f2 !! 0) (lit "");
        Course.end_time := times.1;
        Course.dropped_time := times.2;
        Course.overall_mark := orNA (Overall.mark overall);
        Course.isFinal := Overall.isFinal overall;
        Course.isMidterm := Overall.isMidterm overall;
        Course.link := link;
        Course.assignments := [];
        Course.weight_table := ∅;
      |})
    else Normal None
  else Normal None.

Definition courseStep (courses : list Course.t) (elem : ListRow.t)
  : list Course.t :=
  tryCatch
    (c ← courseRow elem;
     Normal (match c with Some c => courses ++ [c] | None => courses end))
    (fun _ => courses).

Definition extractCourses (rows : list ListRow.t) : list Course.t :=
  foldl courseStep [] rows.

Definition parseMark (category : jsstring) : completion Mark.t :=
  let markDetails := split (lit " / ") category in
  let get := parseFloat (toString (markDetails !! 0)) in
  afterSlash ← deref (markDetails !! 1);
  let totalAndWeight := split (lit " = ") afterSlash in
  let total := parseFloat (toString (totalAndWeight !! 0)) in
  let weight :=
    match totalAndWeight !! 1 ≫= matchNumber (lit "weight=") with
    | Some g => parseFloat g
    | None => ofN 0
    end in
  Normal (Mark.mk get total weight (negb (includes (lit "finished") category))).

Definition categoryStep (elem : DetailRow.t) (assignment : Assignment.t)
    (item : string * string) : Assignment.t :=
  let category := categoryText elem item.2 in
  if JsString.truthy category then
    Assignment.mk (Assignment.name assignment) (Assignment.feedback assignment)
      (<[item.1 := [tryCatch (parseMark category) (fun _ => placeholder)]]>
         (Assignment.categories assignment))
  else assignment.

Definition assignmentRow (elem : DetailRow.t) : Assignment.t :=
  foldl (categoryStep elem)
    (Assignment.mk (replaceAll tab (lit "") (DetailRow.rowspan2 elem)) None ∅)
    assignmentColors.

Definition rowStep (st : nat * list Assignment.t) (elem : DetailRow.t)
  : completion (nat * list Assignment.t) :=
  let counter := S st.1 in
  let assignments := st.2 in
  if bool_decide (counter mod 2 = 0) then
    if bool_decide (2 < counter) then
      let last := length assignments - 1 in
      a ← deref (assignments !! last);
      Normal (counter,
              <[last := setFeedback (trim (DetailRow.text elem)) a]> assignments)
    else Normal (counter, assignments)
  else Normal (counter, assignments ++ [assignmentRow elem]).

Fixpoint eachRow (st : nat * list Assignment.t) (rows : list DetailRow.t)
  : completion (nat * list Assignment.t) :=
  match rows with
  | [] => Normal st
  | elem :: rows' => st' ← rowStep st elem; eachRow st' rows'
  end.

Definition parseAssignments (rows : list DetailRow.t)
  : completion (list Assignment.t) :=
  st ← eachRow (1, []) rows; Normal st.2.

(** [parseFloat(weights[i]?.replace("%", "") || "0")] *)
Definition weightCell (weights : list jsstring) (i : nat) : number :=
  parseFloat (orElse (replace (lit "%") (lit "") <$> weights !! i) (lit "0")).

Definition weightEntry (weights : list jsstring) : Weights.t :=
  let index := if isFinalRow weights then 0 else 1 in
  let weights :=
    if isFinalRow weights then <[0 := lit "0%"]> weights else weights in
  Weights.mk (weightCell weights index) (weightCell weights (index + 1))
             (weightCell weights (index + 2)).

Definition weightStep (page : DetailPage.t) (table : gmap string Weights.t)
    (item : string * string) : gmap string Weights.t :=
  <[item.1 := weightEntry (collectWeights page item.2)]> table.

Definition parseWeightTable (page : DetailPage.t) : gmap string Weights.t :=
  foldl (weightStep page) ∅ weightColors.

Section Handler.
Variable loadCourseList : jsstring -> list ListRow.t.
Variable loadDetail : jsstring -> DetailPage.t.
Variable Portal : Type.
Variable cookieFetch : Portal -> Fetch.t -> Portal * completion jsstring.

Abbreviation session := (session Portal).
Abbreviation fetchText := (fetchText Portal cookieFetch).

(** The body of the [for] loop at index [i]; a course without a link
    ([undefined] or empty) is passed over. *)
Definition courseDetail (i : nat) (courses : list Course.t) (s : session)
  : session * completion (list Course.t) :=
  match courses !! i with
  | None => (s, Throw TypeError)
  | Some course =>
      if missing (Course.link course) then (s, Normal courses)
      else
        let '(s', r) := fetchText (post (detailUrl course)) s in
        match r with
        | Throw e => (s', Throw e)
        | Normal courseText =>
            let page := loadDetail courseText in
            match parseAssignments (DetailPage.rows page) with
            | Throw e => (s', Throw e)
            | Normal assignments =>
                let weight_table := parseWeightTable page in
                (s', Normal (<[i := withDetail course assignments
                                               weight_table]> courses))
            end
        end
  end.

Fixpoint detailLoop (n i : nat) (courses : list Course.t) (s : session)
  : session * completion (list Course.t) :=
  match n with
  | O => (s, Normal courses)
  | S n' =>
      let '(s', r) := courseDetail i courses s in
      match r with
      | Throw e => (s', Throw e)
      | Normal courses' => detailLoop n' (S i) courses' s'
      end
  end.

Definition coursePages (textData : jsstring) (s : session)
  : session * completion response :=
  let courses := extractCourses (loadCourseList textData) in
  let '(s', r) := detailLoop (length courses) 0 courses s in
  match r with
  | Throw e => (s', Throw e)
  | Normal courses' => (s', Normal (Reply 200 (CoursesBody courses')))
  end.

Definition fetchGrades (username password : jsstring) (s : session)
  : session * completion response :=
  let '(s', r) := fetchText (post (loginUrl username password)) s in
  match r with
  | Throw e => (s', Throw e)
  | Normal textData =>
      if includes (lit "Invalid Login") textData then
        (s', Normal (Reply 401 (ErrorBody (lit "Invalid Login"))))
      else if includes (lit "Access Denied") textData then
        (s', Normal (Reply 403 (ErrorBody (lit "Access Denied"))))
      else if includes (lit "Session Expired") textData then
        (s', Normal (Reply 401 (ErrorBody (lit "Session Expired"))))
      else coursePages textData s'
  end.

Definition handler (req : Request.t) (p : Portal) : session * response :=
  let s := Session Portal p [] in
  if negb (bool_decide (Request.method req = lit "POST")) then
    (s, Reply 405 (ErrorBody (lit "Method Not Allowed")))
  else if missing (Request.username req) || missing (Request.password req)
  then (s, Reply 400 (ErrorBody (lit "Invalid username or password")))
  else
    let '(s', r) :=
      fetchGrades (toString (Request.username req))
                  (toString (Request.password req)) s in
    (s', tryCatch r (fun e => Reply 500 (ErrorMessage e))).

End Handler.

End Revised.

(* ===================================================================== *)
(** * Vocabulary of the statements                                        *)
(* ===================================================================== *)

(** A course as the course list alone gives it: no detail yet. *)
Definition summary (c : Course.t) : Course.t := withDetail c [] ∅.

(** The entry the colour table of the assignment parser leaves for a colour
    of a row: none when the row has no text in a cell of that colour. *)
Definition expectedEntry (elem : DetailRow.t) (color : string)
  : option (list Mark.t) :=
  let category := categoryText elem color in
  if JsString.truthy category then Some (categoryEntry category) else None.

(** The entry of the weight table for a colour: none when reading the
    triple raised. *)
Definition expectedWeights (page : DetailPage.t) (color : string)
  : option Weights.t :=
  match weightEntry (collectWeights page color) with
  | Normal e => Some e
  | Throw _ => None
  end.

(* ===================================================================== *)
(** * A small portal to run the handler on                                *)
(* ===================================================================== *)

Module Sample.
Import JsString.

(** A course row without an anchor, with a current mark of zero. *)
Definition courseText : jsstring :=
  join newline
    [lit ""; lit "  ICS4U1-01 : Computer Science"; lit "  Block: P1 - rm. 204";
     lit "  2024-02-05 ~"; lit "  2024-06-27"; lit "  current mark = 0%"; lit ""].

Definition unlinked : ListRow.t := ListRow.mk None courseText.

(** A row that breaks off after the room. *)
Definition truncated : ListRow.t :=
  ListRow.mk (Some (lit "viewReport.php?subject_id=1"))
    (join newline [lit ""; lit "ENG4U1-02 : English"; lit "Block: P2 - rm. 110"]).

Definition header : DetailRow.t :=
  DetailRow.mk (lit "Assignment Knowledge Application") (lit "") (fun _ => lit "").

Definition test : DetailRow.t :=
  DetailRow.mk (lit "Unit 1 Test 8 / 10 = 80% weight=25%") (lit "Unit 1 Test")
    (fun color =>
       if String.eqb color "ffffaa" then lit "  8 / 10 = 80% weight=25%  "
       else lit "").

Definition note : DetailRow.t :=
  DetailRow.mk (lit "  Good work.  ") (lit "") (fun _ => lit "").

(** The application cell holds a remark instead of a score. *)
Definition quiz : DetailRow.t :=
  DetailRow.mk (lit "Quiz 2 not finished") (lit "Quiz 2")
    (fun color =>
       if String.eqb color "ffd490" then lit "not finished" else lit "").

Definition detail : DetailPage.t :=
  DetailPage.mk [header; test; note; quiz]
    (fun color =>
       if String.eqb color "#ffffaa" then
         [lit "Knowledge/Understanding"; lit " 25% "; lit "17.5%"; lit "80%"]
       else if String.eqb color "#cccccc" then
         [lit "Final/Culminating"; lit "30%"; lit "90%"]
       else if String.eqb color "#ffd490" then [lit "Application"; lit "25%"]
       else []).

(** A portal that answers every request with the same page; the two
    selectors find the row and the detail above in it. *)
Definition cookieFetch (p : unit) (q : Fetch.t) : unit * completion jsstring :=
  (p, Normal (lit "<html></html>")).

Definition loadCourseList (page : jsstring) : list ListRow.t := [unlinked].
Definition loadDetail (page : jsstring) : DetailPage.t := detail.

Definition request : Request.t :=
  Request.mk (lit "POST") (Some (lit "123456789")) (Some (lit "hunter2")).

End Sample.

(* ===================================================================== *)
(** * The original handler                                                *)
(* ===================================================================== *)

(** The repository also keeps the handler the two above were derived from.
    Two of its differences from the first one touch what is modelled here:
    the loop that collects the lines of a row, and the test of the first
    weight cell. *)
Module Original.
Import JsString JsNumber.

(** The loop that trims the lines in place and collects the non-empty
    ones. *)
Definition filterLines (course : list jsstring) : list jsstring :=
  foldl (fun filteredCourse item =>
           let item := trim item in
           if bool_decide (0 < length item) then filteredCourse ++ [item]
           else filteredCourse)
        [] course.

(** The body of the [try] block of the weight table, with
    [weights[0].includes("Final")] read without a guard. *)
Definition weightEntry (weights : list jsstring) : completion Weights.t :=
  w0 ← deref (weights !! 0);
  let index := if includes (lit "Final") w0 then 0 else 1 in
  let weights :=
    if includes (lit "Final") w0 then <[0 := lit "0%"]> weights else weights in
  w ← deref (weights !! index);
  cw ← deref (weights !! (index + 1));
  sa ← deref (weights !! (index + 2));
  Normal (Weights.mk (parseFloat (replace (lit "%") (lit "") w))
                     (parseFloat (replace (lit "%") (lit "") cw))
                     (parseFloat (replace (lit "%") (lit "") sa))).

Definition weightStep (page : DetailPage.t) (table : gmap string Weights.t)
    (item : string * string) : gmap string Weights.t :=
  tryCatch
    (e ← weightEntry (collectWeights page item.2);
     Normal (<[item.1 := e]> table))
    (fun _ => table).

End Original.

(* ===================================================================== *)
(** * More vocabulary                                                     *)
(* ===================================================================== *)

(** The course a row gives, if it gives one. *)
Definition courseOf (elem : ListRow.t) : option Course.t :=
  match courseRow elem with
  | Normal (Some c) => Some c
  | _ => None
  end.

(** The end time and the dropped time read from the fourth line. *)
Definition courseTimes (f3 : jsstring) : jsstring * jsstring :=
  if JsString.includes (lit "Dropped on") f3 then
    (JsString.trim (JsString.before (lit "Dropped") f3),
     JsString.trim
       (match JsString.cut (lit "Dropped on") f3 with
        | Some (_, d) => JsString.before (lit "Dropped on") d
        | None => f3
        end))
  else (JsString.trim f3, lit "").

(** A request the portal rejected with [e], the last one of the session. *)
Definition rejectedLast {Portal : Type}
    (cookieFetch : Portal -> Fetch.t -> Portal * completion jsstring)
    (e : exn) (s : session Portal) : Prop :=
  exists q p0 p1,
    cookieFetch p0 q = (p1, Throw e) /\ last (requests _ s) = Some q.

(** A portal that is out of reach. *)
Definition unreachable (p : unit) (q : Fetch.t) : unit * completion jsstring :=
  (p, Throw (FetchError (lit "connect ECONNREFUSED"))).

(** A text in which the first occurrence of [token] is followed by a
    non-empty run [g] of digits and dots and then by "%". *)
Definition numberFollows (token g s : jsstring) : Prop :=
  exists pre post,
    s = pre ++ token ++ g ++ lit "%" ++ post
    /\ (forall pre' after', s = pre' ++ token ++ after' ->
                            length pre <= length pre')
    /\ g <> []
    /\ Forall (fun c => Revised.isNumberChar c = true) g.

(* ===================================================================== *)
(** * Facts about the string operations                                   *)
(* ===================================================================== *)

Section StringFacts.
Import JsString.

Lemma startsWith_app p a : startsWith p (p ++ a) = true.
Proof. induction p as [|c p IH]; simpl; [done|]. by rewrite N.eqb_refl. Qed.

Lemma startsWith_spec p s : startsWith p s = true <-> exists a, s = p ++ a.
Proof.
  split.
  - revert s. induction p as [|c p IH]; intros [|d s] H; simpl in *; eauto; try done.
    apply andb_true_iff in H as [Hc Hp]. apply N.eqb_eq in Hc as ->.
    destruct (IH _ Hp) as [a ->]. eauto.
  - intros [a ->]. apply startsWith_app.
Qed.

Lemma startsWith_drop p s :
  startsWith p s = true -> s = p ++ drop (length p) s.
Proof.
  intros [a ->]%startsWith_spec. by rewrite drop_app_length.
Qed.

(** [cut] splits at an occurrence of the separator... *)
Lemma cut_Some sep s b a : cut sep s = Some (b, a) -> s = b ++ sep ++ a.
Proof.
  revert b. induction s as [|c s IH]; intros b; simpl.
  - destruct (startsWith sep []) eqn:E; [|done].
    intros [= <- <-]. by apply startsWith_drop in E.
  - destruct (startsWith sep (c :: s)) eqn:E.
    + intros [= <- <-]. by apply startsWith_drop in E.
    + destruct (cut sep s) as [[b' a']|]; [|done].
      intros [= <- <-]. by rewrite (IH b' eq_refl).
Qed.

Lemma cut_unfold sep s :
  cut sep s =
    if startsWith sep s then Some ([], drop (length sep) s)
    else match s with
         | [] => None
         | c :: s' =>
             match cut sep s' with
             | Some (b, a) => Some (c :: b, a)
             | None => None
             end
         end.
Proof. by destruct s. Qed.

(** ...and finds one whenever there is one. *)
Lemma cut_app sep b a : is_Some (cut sep (b ++ sep ++ a)).
Proof.
  induction b as [|c b IH]; rewrite cut_unfold.
  - simpl. rewrite startsWith_app. eauto.
  - destruct (startsWith sep _); [eauto|]. simpl.
    destruct IH as [[b' a'] ->]. eauto.
Qed.

(** The occurrence [cut] finds is the first one. *)
Lemma cut_first sep s b a :
  cut sep s = Some (b, a) ->
  forall b' a', s = b' ++ sep ++ a' -> length b <= length b'.
Proof.
  revert b. induction s as [|c s IH]; intros b; rewrite cut_unfold.
  - destruct (startsWith sep []); [|done]. intros [= <- _] ? ? _. simpl. lia.
  - destruct (startsWith sep (c :: s)) eqn:E.
    + intros [= <- _] ? ? _. simpl. lia.
    + destruct (cut sep s) as [[b0 a0]|] eqn:E0; [|done].
      intros [= <- <-] b' a' Hs. destruct b' as [|c' b'].
      * simpl in Hs. rewrite Hs, startsWith_app in E. done.
      * injection Hs as -> ->. simpl.
        specialize (IH _ eq_refl _ _ eq_refl). lia.
Qed.

Lemma includes_spec p s : includes p s = true <-> exists b a, s = b ++ p ++ a.
Proof.
  unfold includes. split.
  - destruct (cut p s) as [[b a]|] eqn:E; [|done].
    intros _. apply cut_Some in E. eauto.
  - intros (b & a & ->). by destruct (cut_app p b a) as [? ->].
Qed.

Lemma includes_cut p s : includes p s = true <-> is_Some (cut p s).
Proof. unfold includes. destruct (cut p s); split; (done || by inversion 1 || eauto). Qed.

Lemma includes_false_cut p s : includes p s = false <-> cut p s = None.
Proof. unfold includes. by destruct (cut p s). Qed.

(** A text that holds [p ++ q] holds [p]. *)
Lemma includes_prefix p q s : includes (p ++ q) s = true -> includes p s = true.
Proof.
  rewrite !includes_spec. intros (b & a & ->). exists b, (q ++ a).
  by rewrite <- app_assoc.
Qed.

Lemma cut_length sep s b a :
  cut sep s = Some (b, a) -> length s = length b + length sep + length a.
Proof. intros ->%cut_Some. rewrite !length_app. lia. Qed.

Lemma cut_nil sep : sep <> [] -> cut sep [] = None.
Proof. by destruct sep. Qed.

(** More fuel than the length of the text changes nothing. *)
Lemma split_go_fuel sep n m s :
  sep <> [] -> length s <= n -> length s <= m ->
  split_go n sep s = split_go m sep s.
Proof.
  intros Hsep. revert m s. induction n as [|n IH]; intros [|m] s Hn Hm; simpl; try done.
  - destruct s; [|simpl in *; lia]. by rewrite cut_nil.
  - destruct s; [|simpl in *; lia]. by rewrite cut_nil.
  - destruct (cut sep s) as [[b a]|] eqn:E; [|done].
    apply cut_length in E. destruct sep; [done|]. simpl in E.
    f_equal. apply IH; lia.
Qed.

Lemma split_unfold sep s :
  sep <> [] ->
  split sep s = match cut sep s with
                | None => [s]
                | Some (b, a) => b :: split sep a
                end.
Proof.
  intros Hsep. unfold split. destruct sep as [|d sep]; [done|].
  destruct s as [|c s]; simpl length; cbn [split_go].
  - by rewrite cut_nil.
  - destruct (cut (d :: sep) (c :: s)) as [[b a]|] eqn:E; [|done].
    f_equal. apply cut_length in E. simpl in E.
    apply split_go_fuel; [done|lia|lia].
Qed.

Lemma split_0 sep s : sep <> [] -> split sep s !! 0 = Some (before sep s).
Proof.
  intros H. rewrite split_unfold by done. unfold before.
  by destruct (cut sep s) as [[b a]|].
Qed.

Lemma split_1 sep s :
  sep <> [] ->
  split sep s !! 1 = match cut sep s with
                     | Some (_, a) => Some (before sep a)
                     | None => None
                     end.
Proof.
  intros H. rewrite split_unfold by done.
  destruct (cut sep s) as [[b a]|]; [|done]. simpl. by apply split_0.
Qed.

Lemma split_1_None sep s :
  sep <> [] -> includes sep s = false -> split sep s !! 1 = None.
Proof.
  intros H E. rewrite split_1 by done. apply includes_false_cut in E. by rewrite E.
Qed.

End StringFacts.

(* ===================================================================== *)
(** * The overall mark                                                    *)
(* ===================================================================== *)

Section OverallMarkFacts.
Import JsString JsNumber.

Lemma numberAfter_cut token mark pre after :
  token <> [] -> cut token mark = Some (pre, after) ->
  numberAfter token mark
  = Normal (parseFloat (before (lit "%") (before token after))).
Proof.
  intros Ht E. unfold numberAfter. rewrite split_1, E by done.
  cbn [deref mbind completion_bind]. by rewrite split_0.
Qed.

Lemma numberAfter_absent token mark :
  token <> [] -> includes token mark = false ->
  numberAfter token mark = Throw TypeError.
Proof.
  intros Ht E. unfold numberAfter. by rewrite split_1_None.
Qed.

(** When none of the three words occurs the sentinel comes back. *)
Lemma parseOverallMark_no_pattern mark :
  let cleaned := replaceAll (lit " ") (lit "") mark in
  includes (lit "FINAL") cleaned = false ->
  includes (lit "currentmark") cleaned = false ->
  includes (lit "MIDTERM") cleaned = false ->
  parseOverallMark mark = Normal (Overall.mk NA false false).
Proof.
  intros cleaned H1 H2 H3. unfold parseOverallMark. fold cleaned.
  by rewrite H1, H2, H3.
Qed.

(** The word is there but the token the number is read after is not: the
    read of [split(...)[1]] gives [undefined] and the call raises. *)
Lemma parseOverallMark_final_without_token mark :
  let cleaned := replaceAll (lit " ") (lit "") mark in
  includes (lit "FINAL") cleaned = true ->
  includes (lit "FINALMARK:") cleaned = false ->
  parseOverallMark mark = Throw TypeError.
Proof.
  intros cleaned H1 H2. unfold parseOverallMark. fold cleaned.
  by rewrite H1, numberAfter_absent.
Qed.

(** With the token in the text the final branch returns, whatever follows
    the token. *)
Lemma parseOverallMark_final_token mark pre after :
  cut (lit "FINALMARK:") (replaceAll (lit " ") (lit "") mark)
  = Some (pre, after) ->
  parseOverallMark mark
  = Normal (Overall.mk
              (Num (parseFloat (before (lit "%")
                                  (before (lit "FINALMARK:") after))))
              true false).
Proof.
  intros E. unfold parseOverallMark.
  assert (includes (lit "FINAL") (replaceAll (lit " ") (lit "") mark) = true)
    as ->.
  { apply (includes_prefix _ (lit "MARK:")).
    apply (proj2 (includes_cut (lit "FINALMARK:") _)). by rewrite E. }
  by rewrite (numberAfter_cut _ _ pre after).
Qed.

(** C1, as amended.  For every mark text that, once its spaces are removed,
    contains the token "FINALMARK:" (with or without a current-mark
    fragment) and in which the text that follows the first "FINALMARK:", up
    to the next "%", reads as a number, [parseOverallMark] returns that
    number with [isFinal = true] and [isMidterm = false]; the current-mark
    pattern plays no part. *)
Theorem final_mark_wins mark :
  let cleaned := replaceAll (lit " ") (lit "") mark in
  includes (lit "FINALMARK:") cleaned = true ->
  exists pre after,
    cleaned = pre ++ lit "FINALMARK:" ++ after
    /\ (forall pre' after',
          cleaned = pre' ++ lit "FINALMARK:" ++ after' ->
          length pre <= length pre')
    /\ forall x,
         parseFloat (before (lit "%") (before (lit "FINALMARK:") after)) = x ->
         x <> NaN ->
         parseOverallMark mark = Normal (Overall.mk (Num x) true false).
Proof.
  intros cleaned H.
  apply includes_cut in H as [[pre after] E].
  exists pre, after. split; [by apply cut_Some|].
  split; [by apply (cut_first _ _ _ _ E)|].
  intros x <- _. by apply (parseOverallMark_final_token _ pre).
Qed.

Lemma final_mark_wins_witness :
  let mark := lit "FINAL MARK: 87.5% current mark = 72.3%" in
  let cleaned := replaceAll (lit " ") (lit "") mark in
  includes (lit "FINALMARK:") cleaned = true
  /\ includes (lit "currentmark") cleaned = true
  /\ parseOverallMark mark
     = Normal (Overall.mk (Num (Decimal false 875 (-1))) true false).
Proof.
  split; [reflexivity|]. split; [reflexivity|].
  destruct (final_mark_wins (lit "FINAL MARK: 87.5% current mark = 72.3%"))
    as (pre & after & Hcut & Hfirst & Hmark); [reflexivity|].
  apply Hmark; [|discriminate].
  assert (pre = lit "" /\ after = lit "87.5%currentmark=72.3%") as [-> ->].
  { specialize (Hfirst (lit "") (lit "87.5%currentmark=72.3%") eq_refl).
    destruct pre; [|simpl in Hfirst; lia].
    split; [done|]. by injection Hcut as <-. }
  reflexivity.
Defined.

(** C1 as stated fails: a text with the word "FINAL" and a current-mark
    fragment, but without the token "FINALMARK:", makes the call raise
    instead of returning a final mark. *)
Lemma final_without_token_counterexample :
  let mark := lit "FINAL current mark = 72%" in
  let cleaned := replaceAll (lit " ") (lit "") mark in
  includes (lit "FINAL") cleaned = true
  /\ includes (lit "currentmark") cleaned = true
  /\ parseOverallMark mark = Throw TypeError.
Proof. vm_compute. done. Qed.

(** C2, at the inputs where the code departs from it.  The claim wants the
    sentinel with both flags off when the number cannot be extracted; the
    handler raises when the token is missing, and returns [NaN] with the
    final flag on when the token is followed by something that is not a
    number. *)
Theorem parseOverallMark_failed_extraction :
  parseOverallMark (lit "FINAL") = Throw TypeError
  /\ parseOverallMark (lit "FINAL MARK: abc%")
     = Normal (Overall.mk (Num NaN) true false).
Proof. vm_compute. done. Qed.

End OverallMarkFacts.

(* ===================================================================== *)
(** * The course list                                                     *)
(* ===================================================================== *)

Section CourseListFacts.
Import JsString JsNumber.

Lemma bind_Normal {A B} (c : completion A) (k : A -> completion B) b :
  c ≫= k = Normal b -> exists a, c = Normal a /\ k a = Normal b.
Proof. destruct c as [a|e]; [eauto|done]. Qed.

(** Step over a read whose value is of no interest. *)
Local Ltac skip_read H :=
  let x := fresh "x" in apply bind_Normal in H as (x & _ & H).

(** What a row that is pushed looks like. *)
Lemma courseRow_pushed elem c :
  courseRow elem = Normal (Some c) ->
  3 < length (courseLines elem)
  /\ exists overall,
       parseOverallMark (markText elem) = Normal overall
       /\ Course.overall_mark c = orNA (Overall.mark overall)
       /\ Course.isFinal c = Overall.isFinal overall
       /\ Course.isMidterm c = Overall.isMidterm overall
       /\ Course.link c = ListRow.href elem
       /\ Course.assignments c = []
       /\ Course.weight_table c = ∅.
Proof.
  unfold courseRow, courseLines, markText.
  intros (line1 & _ & H)%bind_Normal.
  destruct (negb _); [|done].
  case_bool_decide as Hlen; [|done]. split; [done|].
  apply bind_Normal in H as (overall & Ho & H). exists overall. split; [done|].
  do 5 skip_read H. injection H as <-. done.
Qed.

Lemma courseRow_short elem :
  length (courseLines elem) <= 3 ->
  courseRow elem = Normal None \/ courseRow elem = Throw TypeError.
Proof.
  unfold courseRow, courseLines. intros Hlen.
  destruct (split newline (ListRow.text elem) !! 1) as [line1|]; [|by right].
  cbn [deref mbind completion_bind].
  destruct (negb _); [|by left].
  case_bool_decide; [lia|by left].
Qed.

Lemma courseStep_short elem courses :
  length (courseLines elem) <= 3 -> courseStep courses elem = courses.
Proof.
  intros H. unfold courseStep.
  by destruct (courseRow_short elem H) as [-> | ->].
Qed.

(** C5.  A row whose compacted line list has three lines or fewer adds
    nothing to the courses collected so far, and the course list of a page
    is the same with the row as without it: no course of the output comes
    from such a row. *)
Theorem short_rows_excluded elem :
  length (courseLines elem) <= 3 ->
  (forall courses, courseStep courses elem = courses)
  /\ (forall rows rows',
        extractCourses (rows ++ elem :: rows') = extractCourses (rows ++ rows')).
Proof.
  intros H. split.
  - intros courses. by apply courseStep_short.
  - intros rows rows'. unfold extractCourses. rewrite !foldl_app. simpl.
    by rewrite courseStep_short.
Qed.

Lemma short_rows_excluded_witness :
  length (courseLines Sample.truncated) <= 3
  /\ (forall courses, courseStep courses Sample.truncated = courses)
  /\ (forall rows rows',
        extractCourses (rows ++ Sample.truncated :: rows')
        = extractCourses (rows ++ rows')).
Proof.
  split; [vm_compute; lia|].
  apply (short_rows_excluded Sample.truncated). vm_compute. lia.
Defined.

(** C10.  When a row is pushed and the mark read from its text is a number
    whose value is zero, the course carries the sentinel "N/A" as its
    overall mark, not the number: [overall.mark || "N/A"] takes any falsy
    mark to the sentinel. *)
Theorem zero_mark_is_not_available elem c overall x :
  courseRow elem = Normal (Some c) ->
  parseOverallMark (markText elem) = Normal overall ->
  Overall.mark overall = Num x ->
  isZero x = true ->
  Course.overall_mark c = NA.
Proof.
  intros (_ & o & Ho & -> & _)%courseRow_pushed Hp Hx Hz.
  rewrite Hp in Ho. injection Ho as <-. rewrite Hx. unfold orNA, truthy.
  destruct x; try done. by rewrite Hz.
Qed.

Lemma zero_mark_is_not_available_witness :
  exists c,
    courseRow Sample.unlinked = Normal (Some c)
    /\ parseOverallMark (markText Sample.unlinked)
       = Normal (Overall.mk (Num (Decimal false 0 0)) false false)
    /\ Course.overall_mark c = NA.
Proof.
  eexists. split; [vm_compute; reflexivity|]. split; [reflexivity|].
  eapply (zero_mark_is_not_available Sample.unlinked _
            (Overall.mk (Num (Decimal false 0 0)) false false)
            (Decimal false 0 0));
    reflexivity.
Defined.

End CourseListFacts.

(* ===================================================================== *)
(** * The assignment table                                                *)
(* ===================================================================== *)

Section AssignmentFacts.
Import JsString JsNumber.

Lemma parseMark_Normal category :
  includes (lit " / ") category = true ->
  includes (lit "weight=") category = true ->
  exists get total weight,
    parseMark category
    = Normal (Mark.mk get total weight
                (negb (includes (lit "finished") category))).
Proof.
  intros [[b1 a1] E1]%includes_cut [[b2 a2] E2]%includes_cut.
  unfold parseMark. rewrite !split_1, E1, E2 by done.
  cbn [deref mbind completion_bind]. eauto.
Qed.

Lemma parseMark_Throw category :
  includes (lit " / ") category = false
  \/ includes (lit "weight=") category = false ->
  parseMark category = Throw TypeError.
Proof.
  intros H. unfold parseMark.
  destruct (includes (lit " / ") category) eqn:E1.
  - destruct H as [?|E2]; [done|].
    apply includes_cut in E1 as [[b1 a1] E1].
    rewrite (split_1 (lit " / ")), E1 by done.
    cbn [deref mbind completion_bind].
    by rewrite (split_1_None (lit "weight=")).
  - by rewrite (split_1_None (lit " / ")).
Qed.

Lemma parseMark_Throw_inv category e :
  parseMark category = Throw e ->
  e = TypeError
  /\ (includes (lit " / ") category = false
      \/ includes (lit "weight=") category = false).
Proof.
  intros H.
  destruct (includes (lit " / ") category) eqn:E1;
    destruct (includes (lit "weight=") category) eqn:E2; eauto.
  - destruct (parseMark_Normal category E1 E2) as (?&?&?&E). congruence.
  - rewrite parseMark_Throw in H by eauto. split; [congruence|eauto].
  - rewrite parseMark_Throw in H by eauto. split; [congruence|eauto].
  - rewrite parseMark_Throw in H by eauto. split; [congruence|eauto].
Qed.

Lemma categoryStep_name elem a item :
  Assignment.name (categoryStep elem a item) = Assignment.name a
  /\ Assignment.feedback (categoryStep elem a item) = Assignment.feedback a.
Proof. unfold categoryStep. by destruct (JsString.truthy _). Qed.

Lemma foldl_categoryStep_name elem items a :
  Assignment.name (foldl (categoryStep elem) a items) = Assignment.name a
  /\ Assignment.feedback (foldl (categoryStep elem) a items)
     = Assignment.feedback a.
Proof.
  revert a. induction items as [|item items IH]; intros a; [done|]. simpl.
  destruct (IH (categoryStep elem a item)) as [-> ->].
  apply categoryStep_name.
Qed.

Lemma categoryStep_other elem a item key :
  item.1 <> key ->
  Assignment.categories (categoryStep elem a item) !! key
  = Assignment.categories a !! key.
Proof.
  intros H. unfold categoryStep. destruct (JsString.truthy _); [|done].
  simpl. by rewrite lookup_insert_ne.
Qed.

Lemma foldl_categoryStep_other elem items a key :
  key ∉ items.*1 ->
  Assignment.categories (foldl (categoryStep elem) a items) !! key
  = Assignment.categories a !! key.
Proof.
  revert a. induction items as [|item items IH]; intros a H; [done|].
  simpl in *. apply not_elem_of_cons in H as [H1 H2].
  rewrite IH by done. by apply categoryStep_other.
Qed.

Lemma foldl_categoryStep_lookup elem items a key color :
  NoDup items.*1 -> (key, color) ∈ items ->
  Assignment.categories (foldl (categoryStep elem) a items) !! key
  = match expectedEntry elem color with
    | Some entry => Some entry
    | None => Assignment.categories a !! key
    end.
Proof.
  revert a. induction items as [|item items IH]; intros a Hnd Hin.
  - by apply elem_of_nil in Hin.
  - simpl in *. apply NoDup_cons in Hnd as [Hfresh Hnd].
    apply elem_of_cons in Hin as [<- | Hin].
    + rewrite foldl_categoryStep_other by done.
      unfold categoryStep, expectedEntry. simpl.
      destruct (JsString.truthy _); [|done]. simpl. by rewrite lookup_insert_eq.
    + rewrite IH by done. destruct (expectedEntry elem color); [done|].
      apply categoryStep_other. intros <-. apply Hfresh.
      apply list_elem_of_fmap. by exists (item.1, color).
Qed.

Lemma assignmentColors_NoDup : NoDup assignmentColors.*1.
Proof. by apply (bool_decide_unpack _). Qed.

Lemma assignmentRow_lookup elem key color :
  (key, color) ∈ assignmentColors ->
  Assignment.categories (assignmentRow elem) !! key = expectedEntry elem color.
Proof.
  intros H. unfold assignmentRow.
  rewrite (foldl_categoryStep_lookup _ _ _ key color)
    by (done || apply assignmentColors_NoDup).
  by destruct (expectedEntry elem color).
Qed.

Lemma assignmentRow_name elem :
  Assignment.name (assignmentRow elem)
  = replaceAll tab (lit "") (DetailRow.rowspan2 elem).
Proof.
  unfold assignmentRow. by rewrite (proj1 (foldl_categoryStep_name _ _ _)).
Qed.

Lemma assignmentRow_feedback elem :
  Assignment.feedback (assignmentRow elem) = None.
Proof.
  unfold assignmentRow. by rewrite (proj2 (foldl_categoryStep_name _ _ _)).
Qed.

(** ** The walk over the rows *)

Lemma succ_even c : c mod 2 = 0 -> S c mod 2 = 1.
Proof.
  rewrite <- (Nat.add_1_r c), (Nat.Div0.add_mod c 1 2). by intros ->.
Qed.

Lemma succ_odd c : c mod 2 = 1 -> S c mod 2 = 0.
Proof.
  rewrite <- (Nat.add_1_r c), (Nat.Div0.add_mod c 1 2). by intros ->.
Qed.

Lemma rowStep_assignment c acc elem :
  c mod 2 = 0 ->
  rowStep (c, acc) elem = Normal (S c, acc ++ [assignmentRow elem]).
Proof.
  intros H%succ_even. unfold rowStep. cbn [fst snd].
  case_bool_decide as E; [congruence|done].
Qed.

Lemma rowStep_feedback c acc a elem :
  c mod 2 = 1 -> 2 <= c ->
  rowStep (c, acc ++ [a]) elem
  = Normal (S c, acc ++ [setFeedback (trim (DetailRow.text elem)) a]).
Proof.
  intros H%succ_odd Hc. unfold rowStep. cbn [fst snd].
  case_bool_decide as E; [|done].
  case_bool_decide; [|lia].
  rewrite length_app. simpl. replace (length acc + 1 - 1) with (length acc) by lia.
  rewrite list_lookup_middle by done. cbn [deref mbind completion_bind].
  do 2 f_equal. rewrite <- (Nat.add_0_r (length acc)) at 1.
  rewrite insert_app_r. done.
Qed.

Lemma rowStep_first elem : rowStep (1, []) elem = Normal (2, []).
Proof. done. Qed.

Lemma eachRow_paired rows : forall c acc,
  c mod 2 = 0 -> 2 <= c ->
  eachRow (c, acc) rows = Normal (c + length rows, acc ++ paired rows).
Proof.
  induction rows as [rows IH] using (induction_ltof1 _ length).
  unfold ltof in IH. intros c acc Hc H2.
  destruct rows as [|elem [|note rows]].
  - simpl. by rewrite app_nil_r, Nat.add_0_r.
  - simpl. rewrite rowStep_assignment by done. simpl. do 2 f_equal. lia.
  - cbn [eachRow]. rewrite rowStep_assignment by done.
    cbn [mbind completion_bind].
    rewrite rowStep_feedback by (by apply succ_even || lia).
    cbn [mbind completion_bind].
    rewrite (IH rows ltac:(simpl; lia) (S (S c)))
      by (by apply succ_odd, succ_even || lia).
    cbn [length paired]. rewrite <- app_assoc. do 2 f_equal. lia.
Qed.

Lemma eachRow_from_start rows :
  eachRow (1, []) rows = Normal (1 + length rows, paired (drop 1 rows)).
Proof.
  destruct rows as [|first rows]; [done|].
  cbn [eachRow]. rewrite rowStep_first. cbn [mbind completion_bind].
  by rewrite eachRow_paired.
Qed.

Lemma parseAssignments_paired rows :
  parseAssignments rows = Normal (paired (drop 1 rows)).
Proof. unfold parseAssignments. by rewrite eachRow_from_start. Qed.

Lemma paired_length rows : length (paired rows) = (length rows + 1) / 2.
Proof.
  induction rows as [rows IH] using (induction_ltof1 _ length).
  unfold ltof in IH. destruct rows as [|elem [|note rows]]; [done..|].
  cbn [paired length]. rewrite IH by (simpl; lia).
  replace (S (S (length rows)) + 1) with (length rows + 1 + 1 * 2) by lia.
  rewrite Nat.div_add by done. lia.
Qed.

Lemma paired_lookup rows : forall k elem,
  rows !! (2 * k) = Some elem ->
  paired rows !! k
  = Some (match rows !! (2 * k + 1) with
          | Some note =>
              setFeedback (trim (DetailRow.text note)) (assignmentRow elem)
          | None => assignmentRow elem
          end).
Proof.
  induction rows as [rows IH] using (induction_ltof1 _ length).
  unfold ltof in IH. intros k elem H.
  destruct rows as [|e0 [|n0 rows]].
  - done.
  - destruct k; simpl in *; [by injection H as ->|].
    replace (k + S (k + 0)) with (S (2 * k)) in H by lia. done.
  - destruct k.
    + simpl in *. by injection H as ->.
    + replace (2 * S k) with (S (S (2 * k))) in * by lia.
      cbn [paired]. simpl in H. simpl.
      rewrite (IH rows ltac:(simpl; lia) k elem) by (rewrite <- H; f_equal; lia).
      do 2 f_equal. 
Qed.

(** C6.  The walk over the rows of the assignment table starts its counter
    at 1 and adds one before it looks at a row, so the row at position [i]
    (from 0) is seen with counter [i + 2].  It never raises, and its result
    is the pairing of the rows after the first: each row seen with an odd
    counter (position [2k + 1]) gives the assignment number [k], whose
    feedback is the trimmed text of the row right after it (position
    [2k + 2], even counter) when there is one and is unset otherwise.  The
    first row gives nothing and takes no feedback, and the rows seen with
    an even counter add no entry: there are [length rows / 2] entries. *)
Theorem feedback_rows_alternate rows :
  eachRow (1, []) rows = Normal (1 + length rows, paired (drop 1 rows))
  /\ parseAssignments rows = Normal (paired (drop 1 rows))
  /\ length (paired (drop 1 rows)) = length rows / 2
  /\ forall k elem,
       rows !! (2 * k + 1) = Some elem ->
       exists a,
         paired (drop 1 rows) !! k = Some a
         /\ Assignment.name a = Assignment.name (assignmentRow elem)
         /\ Assignment.categories a = Assignment.categories (assignmentRow elem)
         /\ Assignment.feedback a
            = (fun note => trim (DetailRow.text note)) <$> rows !! (2 * k + 2).
Proof.
  split; [apply eachRow_from_start|].
  split; [apply parseAssignments_paired|]. split.
  - rewrite paired_length, length_drop. destruct rows as [|first rows]; [done|].
    cbn [length]. f_equal. lia.
  - intros k elem H. destruct rows as [|first rows]; [done|].
    simpl drop. rewrite drop_0.
    replace (2 * k + 1) with (S (2 * k)) in H by lia.
    replace (2 * k + 2) with (S (2 * k + 1)) by lia. simpl in H.
    change ((first :: rows) !! S (2 * k + 1)) with (rows !! (2 * k + 1)).
    rewrite (paired_lookup rows k elem H). eexists. split; [done|].
    destruct (rows !! (2 * k + 1)) as [note|]; simpl; [done|].
    by rewrite assignmentRow_feedback.
Qed.

Lemma feedback_rows_alternate_witness :
  exists a,
    paired (drop 1 (DetailPage.rows Sample.detail)) !! 0 = Some a
    /\ Assignment.name a = Assignment.name (assignmentRow Sample.test)
    /\ Assignment.categories a = Assignment.categories (assignmentRow Sample.test)
    /\ Assignment.feedback a = Some (lit "Good work.").
Proof.
  apply (proj2 (proj2 (proj2
           (feedback_rows_alternate (DetailPage.rows Sample.detail))))
           0 Sample.test).
  reflexivity.
Defined.

(** C7, as amended.  The cell text "8 / 10 = 80% weight=25%" gives the mark
    [{ get: 8, total: 10, weight: 25, finished: true }].  For every cell
    text that contains both " / " and "weight=", the entry is one mark
    whose [finished] is false exactly when the text contains "finished".
    For a text that lacks " / " or "weight=" the entry is the placeholder,
    whose [finished] is true whatever the text contains. *)
Theorem category_mark_finished :
  categoryEntry (lit "8 / 10 = 80% weight=25%")
  = [Mark.mk (ofN 8) (ofN 10) (ofN 25) true]
  /\ (forall category,
        includes (lit " / ") category = true ->
        includes (lit "weight=") category = true ->
        exists get total weight,
          categoryEntry category
          = [Mark.mk get total weight
                     (negb (includes (lit "finished") category))])
  /\ (forall category,
        includes (lit " / ") category = false
        \/ includes (lit "weight=") category = false ->
        categoryEntry category = [placeholder]).
Proof.
  split; [reflexivity|]. split.
  - intros category H1 H2.
    destruct (parseMark_Normal category H1 H2) as (g & t & w & E).
    exists g, t, w. unfold categoryEntry. by rewrite E.
  - intros category H. unfold categoryEntry. by rewrite parseMark_Throw.
Qed.

Lemma category_mark_finished_witness :
  (exists get total weight,
     categoryEntry (lit "8 / 10 = 80% weight=25% finished")
     = [Mark.mk get total weight false])
  /\ categoryEntry (lit "not finished") = [placeholder].
Proof.
  split.
  - apply (proj1 (proj2 category_mark_finished)
             (lit "8 / 10 = 80% weight=25% finished")); reflexivity.
  - apply (proj2 (proj2 category_mark_finished) (lit "not finished")).
    left. reflexivity.
Defined.

(** C7 as stated fails: the cell text "not finished" contains "finished",
    and the mark stored for it has [finished = true]. *)
Lemma finished_word_counterexample :
  let category := categoryText Sample.quiz "ffd490" in
  category = lit "not finished"
  /\ includes (lit "finished") category = true
  /\ Assignment.categories (assignmentRow Sample.quiz) !! "A"%string
     = Some [Mark.mk (ofN 0) (ofN 0) (ofN 0) true].
Proof. vm_compute. done. Qed.

(** C8.  When a row has a non-empty text in the cell of a category and the
    parse of that text raises, the assignment of the row holds the
    placeholder [{ get: 0, total: 0, weight: 0, finished: true }] under
    that category; its name is the one read from the row, every other
    category holds what its own cell gives, and the row is pushed like any
    other assignment row. *)
Theorem unparsable_category_gets_placeholder elem key color e :
  (key, color) ∈ assignmentColors ->
  categoryText elem color <> [] ->
  parseMark (categoryText elem color) = Throw e ->
  Assignment.categories (assignmentRow elem) !! key = Some [placeholder]
  /\ Assignment.name (assignmentRow elem)
     = replaceAll tab (lit "") (DetailRow.rowspan2 elem)
  /\ (forall key' color',
        (key', color') ∈ assignmentColors -> key' <> key ->
        Assignment.categories (assignmentRow elem) !! key'
        = expectedEntry elem color')
  /\ (forall c acc,
        c mod 2 = 0 ->
        rowStep (c, acc) elem = Normal (S c, acc ++ [assignmentRow elem])).
Proof.
  intros Hin Hne Ht. split; [|split; [|split]].
  - rewrite (assignmentRow_lookup _ _ color) by done.
    unfold expectedEntry, categoryEntry. rewrite Ht.
    by destruct (categoryText elem color).
  - apply assignmentRow_name.
  - intros key' color' Hin' _. by apply assignmentRow_lookup.
  - intros c acc Hc. by apply rowStep_assignment.
Qed.

Lemma unparsable_category_gets_placeholder_witness :
  Assignment.categories (assignmentRow Sample.quiz) !! "A"%string
  = Some [placeholder]
  /\ Assignment.name (assignmentRow Sample.quiz)
     = replaceAll tab (lit "") (DetailRow.rowspan2 Sample.quiz)
  /\ (forall key' color',
        (key', color') ∈ assignmentColors -> key' <> "A"%string ->
        Assignment.categories (assignmentRow Sample.quiz) !! key'
        = expectedEntry Sample.quiz color')
  /\ (forall c acc,
        c mod 2 = 0 ->
        rowStep (c, acc) Sample.quiz
        = Normal (S c, acc ++ [assignmentRow Sample.quiz])).
Proof.
  apply (unparsable_category_gets_placeholder Sample.quiz "A" "ffd490" TypeError).
  - apply (bool_decide_unpack _). reflexivity.
  - discriminate.
  - reflexivity.
Defined.

End AssignmentFacts.

(* ===================================================================== *)
(** * The weight table                                                    *)
(* ===================================================================== *)

Section WeightFacts.
Import JsString JsNumber.

Lemma weightEntry_short weights :
  length weights < 3 -> weightEntry weights = Throw TypeError.
Proof.
  intros H. unfold weightEntry.
  destruct weights as [|w0 [|w1 [|w2 weights]]]; [| | |simpl in H; lia];
    destruct (isFinalRow _); reflexivity.
Qed.

Lemma weightStep_other page table item key :
  item.1 <> key -> weightStep page table item !! key = table !! key.
Proof.
  intros H. unfold weightStep.
  destruct (weightEntry _); simpl; [|done]. by rewrite lookup_insert_ne.
Qed.

Lemma foldl_weightStep_other page items table key :
  key ∉ items.*1 ->
  foldl (weightStep page) table items !! key = table !! key.
Proof.
  revert table. induction items as [|item items IH]; intros table H; [done|].
  simpl in *. apply not_elem_of_cons in H as [H1 H2].
  rewrite IH by done. by apply weightStep_other.
Qed.

Lemma foldl_weightStep_lookup page items table key color :
  NoDup items.*1 -> (key, color) ∈ items ->
  foldl (weightStep page) table items !! key
  = match expectedWeights page color with
    | Some e => Some e
    | None => table !! key
    end.
Proof.
  revert table. induction items as [|item items IH]; intros table Hnd Hin.
  - by apply elem_of_nil in Hin.
  - simpl in *. apply NoDup_cons in Hnd as [Hfresh Hnd].
    apply elem_of_cons in Hin as [<- | Hin].
    + rewrite foldl_weightStep_other by done.
      unfold weightStep, expectedWeights. simpl.
      destruct (weightEntry _); simpl; [|done]. by rewrite lookup_insert_eq.
    + rewrite IH by done. destruct (expectedWeights page color); [done|].
      apply weightStep_other. intros <-. apply Hfresh.
      apply list_elem_of_fmap. by exists (item.1, color).
Qed.

Lemma weightColors_NoDup : NoDup weightColors.*1.
Proof. by apply (bool_decide_unpack _). Qed.

Lemma parseWeightTable_lookup page key color :
  (key, color) ∈ weightColors ->
  parseWeightTable page !! key = expectedWeights page color.
Proof.
  intros H. unfold parseWeightTable.
  rewrite (foldl_weightStep_lookup _ _ _ key color)
    by (done || apply weightColors_NoDup).
  by destruct (expectedWeights page color).
Qed.

(** C9.  For a category whose collected cell texts are fewer than three,
    reading the triple raises inside the [try] and nothing leaves it: the
    weight table, which is always produced, has no entry under the key of
    that category, and every other category has the entry its own cells
    give. *)
Theorem short_weight_category_omitted page key color :
  (key, color) ∈ weightColors ->
  length (collectWeights page color) < 3 ->
  weightEntry (collectWeights page color) = Throw TypeError
  /\ parseWeightTable page !! key = None
  /\ forall key' color',
       (key', color') ∈ weightColors -> key' <> key ->
       parseWeightTable page !! key' = expectedWeights page color'.
Proof.
  intros Hin Hlen. split; [by apply weightEntry_short|]. split.
  - rewrite (parseWeightTable_lookup _ _ color) by done.
    unfold expectedWeights. by rewrite weightEntry_short.
  - intros key' color' Hin' _. by apply parseWeightTable_lookup.
Qed.

Lemma short_weight_category_omitted_witness :
  length (collectWeights Sample.detail "ffd490") < 3
  /\ weightEntry (collectWeights Sample.detail "ffd490") = Throw TypeError
  /\ parseWeightTable Sample.detail !! "A"%string = None
  /\ forall key' color',
       (key', color') ∈ weightColors -> key' <> "A"%string ->
       parseWeightTable Sample.detail !! key'
       = expectedWeights Sample.detail color'.
Proof.
  split; [vm_compute; lia|].
  apply (short_weight_category_omitted Sample.detail "A" "ffd490").
  - apply (bool_decide_unpack _). reflexivity.
  - vm_compute. lia.
Defined.


End WeightFacts.

(* ===================================================================== *)
(** * The handler                                                         *)
(* ===================================================================== *)

Section HandlerFacts.
Import JsString.
Variable loadCourseList : jsstring -> list ListRow.t.
Variable loadDetail : jsstring -> DetailPage.t.
Variable Portal : Type.
Variable cookieFetch : Portal -> Fetch.t -> Portal * completion jsstring.

Abbreviation session := (session Portal).
Abbreviation fetchText := (fetchText Portal cookieFetch).
Abbreviation courseDetail := (courseDetail loadDetail Portal cookieFetch).
Abbreviation detailLoop := (detailLoop loadDetail Portal cookieFetch).
Abbreviation coursePages := (coursePages loadCourseList loadDetail Portal cookieFetch).
Abbreviation fetchGrades := (fetchGrades loadCourseList loadDetail Portal cookieFetch).
Abbreviation handler := (handler loadCourseList loadDetail Portal cookieFetch).

Lemma summary_withDetail c assignments weight_table :
  summary (withDetail c assignments weight_table) = summary c.
Proof. done. Qed.

Lemma fetchText_requests q (s s' : session) r :
  fetchText q s = (s', r) -> requests _ s' = requests _ s ++ [q].
Proof.
  unfold fetchText. destruct (cookieFetch _ _) as [p r'].
  by intros [= <- _].
Qed.

(** One round of the loop asks for the page of the course at [i], whatever
    its link is, and touches that course only. *)
Lemma courseDetail_spec i courses c (s : session) :
  courses !! i = Some c ->
  exists s' r,
    courseDetail i courses s = (s', r)
    /\ requests _ s' = requests _ s ++ [post (detailUrl c)]
    /\ forall courses',
         r = Normal courses' ->
         exists assignments weight_table,
           courses' = <[i := withDetail c assignments weight_table]> courses.
Proof.
  intros Hc. unfold courseDetail. rewrite Hc.
  destruct (fetchText (post (detailUrl c)) s) as [s1 r1] eqn:E.
  apply fetchText_requests in E.
  destruct r1 as [courseText|e].
  - rewrite parseAssignments_paired. eexists _, _. split; [done|].
    split; [done|]. intros courses' [= <-]. eauto.
  - eexists _, _. split; [done|]. split; [done|]. done.
Qed.

Lemma detailLoop_spec n : forall i courses (s : session),
  i + n = length courses ->
  exists s' r,
    detailLoop n i courses s = (s', r)
    /\ (forall courses',
          r = Normal courses' ->
          requests _ s' = requests _ s ++ ((post ∘ detailUrl) <$> drop i courses)
          /\ summary <$> courses' = summary <$> courses).
Proof.
  induction n as [|n IH]; intros i courses s Hlen.
  - eexists _, _. split; [done|]. intros courses' [= <-].
    rewrite drop_ge by lia. simpl. by rewrite app_nil_r.
  - destruct (lookup_lt_is_Some_2 courses i) as [c Hc]; [lia|].
    destruct (courseDetail_spec i courses c s Hc) as (s1 & r1 & E1 & Hreq & Hupd).
    cbn [detailLoop]. rewrite E1.
    destruct r1 as [courses1|e]; [|eexists _, _; split; done].
    destruct (Hupd _ eq_refl) as (assignments & weight_table & ->).
    destruct (IH (S i) (<[i:=withDetail c assignments weight_table]> courses) s1)
      as (s' & r & -> & H); [rewrite length_insert; lia|].
    eexists _, _. split; [done|]. intros courses' ->.
    destruct (H _ eq_refl) as [Hreq' Hsum]. split.
    + rewrite Hreq', Hreq, drop_insert_lt by lia.
      rewrite (drop_S _ _ _ Hc). simpl. by rewrite <- app_assoc.
    + rewrite Hsum, list_fmap_insert, summary_withDetail.
      apply list_insert_id. by rewrite list_lookup_fmap, Hc.
Qed.

Lemma extractCourses_summary rows :
  summary <$> extractCourses rows = extractCourses rows.
Proof.
  unfold extractCourses.
  enough (forall courses, summary <$> courses = courses ->
            summary <$> foldl courseStep courses rows = foldl courseStep courses rows)
    as H by by apply H.
  induction rows as [|elem rows IH]; intros courses Hc; [done|]. simpl.
  apply IH. unfold courseStep.
  destruct (courseRow elem) as [[c|]|e] eqn:E; simpl; [|done..].
  rewrite fmap_app, Hc. simpl. do 2 f_equal.
  apply courseRow_pushed in E as (_ & o & _ & _ & _ & _ & _ & Ha & Hw).
  destruct c. simpl in *. by subst.
Qed.

(** Past the login, the reply is the course list of the landing page with
    the detail of each course filled in, unless a request is rejected. *)
Lemma coursePages_spec textData (s : session) :
  exists s' r,
    coursePages textData s = (s', r)
    /\ ((exists courses,
           r = Normal (Reply 200 (CoursesBody courses))
           /\ requests _ s'
              = requests _ s
                ++ ((post ∘ detailUrl)
                      <$> extractCourses (loadCourseList textData))
           /\ summary <$> courses = extractCourses (loadCourseList textData))
        \/ exists e, r = Throw e).
Proof.
  unfold coursePages.
  set (courses := extractCourses (loadCourseList textData)).
  destruct (detailLoop_spec (length courses) 0 courses s) as (s' & r & -> & H);
    [done|].
  destruct r as [courses'|e].
  - eexists _, _. split; [done|]. left. exists courses'.
    destruct (H _ eq_refl) as [Hreq Hsum]. split; [done|]. split; [done|].
    rewrite Hsum. apply extractCourses_summary.
  - eexists _, _. split; [done|]. right. eauto.
Qed.

(** C3.  With both credentials present and the method POST, the text of
    the login answer is checked for three markers in this order: one that
    contains "Invalid Login" is answered 401 "Invalid Login", whatever
    else it contains; else one that contains "Access Denied" is answered
    403 "Access Denied"; else one that contains "Session Expired" is
    answered 401 "Session Expired"; in these three cases nothing more is
    requested.  A text with none of the markers is read as the course-list
    page: the reply is the courses extracted from it, with their details
    filled in, unless a later request is rejected. *)
Theorem login_markers_in_order req p p' textData :
  missing (Request.username req) = false ->
  missing (Request.password req) = false ->
  Request.method req = lit "POST" ->
  let login :=
    post (loginUrl (toString (Request.username req))
                   (toString (Request.password req))) in
  cookieFetch p login = (p', Normal textData) ->
  let reply status error :=
    (Session Portal p' [login], Some (Reply status (ErrorBody (lit error)))) in
  (includes (lit "Invalid Login") textData = true ->
   handler req p = reply 401 "Invalid Login"%string)
  /\ (includes (lit "Invalid Login") textData = false ->
      includes (lit "Access Denied") textData = true ->
      handler req p = reply 403 "Access Denied"%string)
  /\ (includes (lit "Invalid Login") textData = false ->
      includes (lit "Access Denied") textData = false ->
      includes (lit "Session Expired") textData = true ->
      handler req p = reply 401 "Session Expired"%string)
  /\ (includes (lit "Invalid Login") textData = false ->
      includes (lit "Access Denied") textData = false ->
      includes (lit "Session Expired") textData = false ->
      exists s' r,
        coursePages textData (Session Portal p' [login]) = (s', r)
        /\ handler req p
           = (s', Some (tryCatch r (fun e => Reply 500 (ErrorMessage e))))
        /\ ((exists courses,
               r = Normal (Reply 200 (CoursesBody courses))
               /\ summary <$> courses
                  = extractCourses (loadCourseList textData))
            \/ exists e, r = Throw e)).
Proof.
  intros Hu Hp Hm login Hfetch reply.
  assert (Hh : handler req p
               = let '(s', r) :=
                   fetchGrades
                     (toString (Request.username req))
                     (toString (Request.password req)) (Session Portal p []) in
                 (s', Some (tryCatch r (fun e => Reply 500 (ErrorMessage e))))).
  { unfold handler. rewrite Hu, Hp. simpl.
    by rewrite bool_decide_eq_true_2. }
  rewrite Hh. unfold fetchGrades, fetchText.
  cbn [portal requests].
  fold login. rewrite Hfetch. cbn [app].
  repeat split.
  - by intros ->.
  - by intros -> ->.
  - by intros -> -> ->.
  - intros -> -> ->.
    destruct (coursePages_spec textData (Session Portal p' [login]))
      as (s' & r & E & H).
    exists s', r. split; [done|]. split; [by rewrite E|].
    destruct H as [(courses & -> & _ & Hs)|[e ->]]; [left|right]; eauto.
Qed.

(** The handler asks for a page for each course of the list, link or no
    link. *)
Lemma every_course_requested textData (s s' : session) courses :
  coursePages textData s = (s', Normal (Reply 200 (CoursesBody courses))) ->
  requests _ s'
  = requests _ s
    ++ ((post ∘ detailUrl) <$> extractCourses (loadCourseList textData)).
Proof.
  intros E.
  destruct (coursePages_spec textData s) as (s1 & r1 & E1 & H).
  rewrite E in E1. injection E1 as <- <-.
  destruct H as [(courses' & _ & H & _)|[e ?]]; done.
Qed.

End HandlerFacts.

Section SampleRun.
Import JsString.

Lemma login_markers_in_order_witness :
  let login := post (loginUrl (lit "123456789") (lit "hunter2")) in
  exists s' r,
    coursePages Sample.loadCourseList Sample.loadDetail unit Sample.cookieFetch
      (lit "<html></html>") (Session unit tt [login]) = (s', r)
    /\ handler Sample.loadCourseList Sample.loadDetail unit Sample.cookieFetch
         Sample.request tt
       = (s', Some (tryCatch r (fun e => Reply 500 (ErrorMessage e))))
    /\ ((exists courses,
           r = Normal (Reply 200 (CoursesBody courses))
           /\ summary <$> courses
              = extractCourses (Sample.loadCourseList (lit "<html></html>")))
        \/ exists e, r = Throw e).
Proof.
  apply (login_markers_in_order Sample.loadCourseList Sample.loadDetail unit
           Sample.cookieFetch Sample.request tt tt (lit "<html></html>"));
    reflexivity.
Defined.

(** C4, at an input where the code departs from it.  The course list holds
    one course, which has no link.  The claim wants no detail request for
    it and empty assignments and weight table; the handler posts to
    [".../students/undefined"] and fills both from the answer. *)
Theorem unlinked_course_is_requested :
  Course.link <$> extractCourses [Sample.unlinked] = [None]
  /\ exists p course,
       handler Sample.loadCourseList Sample.loadDetail unit Sample.cookieFetch
         Sample.request tt
       = (Session unit p
            [post (loginUrl (lit "123456789") (lit "hunter2"));
             post (lit "https://ta.yrdsb.ca/live/students/undefined")],
          Some (Reply 200 (CoursesBody [course])))
       /\ Course.link course = None
       /\ length (Course.assignments course) = 2
       /\ Course.weight_table course !! "F"%string
          = Some (Weights.mk (JsNumber.ofN 0) (JsNumber.ofN 30)
                             (JsNumber.ofN 90)).
Proof.
  split; [reflexivity|]. eexists _, _. split; [vm_compute; reflexivity|].
  split; [reflexivity|]. split; [reflexivity|]. vm_compute. reflexivity.
Qed.

End SampleRun.

(* ===================================================================== *)
(** * The revised handler                                                 *)
(* ===================================================================== *)

Section RevisedFacts.
Import JsString.

Lemma matchNumber_includes token s g :
  Revised.matchNumber token s = Some g -> includes token s = true.
Proof.
  induction s as [|c s IH]; simpl.
  - unfold Revised.matchHere. destruct (startsWith token []) eqn:E; [|done].
    intros _. apply startsWith_spec in E as [a E]. apply includes_spec.
    exists [], a. done.
  - destruct (Revised.matchHere token (c :: s)) eqn:Eh.
    + intros _. unfold Revised.matchHere in Eh.
      destruct (startsWith token (c :: s)) eqn:E; [|done].
      apply startsWith_spec in E as [a E]. apply includes_spec.
      exists [], a. done.
    + intros H%IH. apply includes_spec in H as (b & a & ->).
      apply includes_spec. exists (c :: b), a. done.
Qed.

Lemma matchNumber_absent token s :
  includes token s = false -> Revised.matchNumber token s = None.
Proof.
  intros H. destruct (Revised.matchNumber token s) eqn:E; [|done].
  apply matchNumber_includes in E. congruence.
Qed.

(** Where the first handler raises, the revised one keeps the sentinel. *)
Lemma revised_final_without_token mark :
  let cleaned := replaceAll (lit " ") (lit "") mark in
  includes (lit "FINAL") cleaned = true ->
  includes (lit "FINALMARK:") cleaned = false ->
  Revised.parseOverallMark mark = Overall.mk NA false false.
Proof.
  intros cleaned H1 H2. unfold Revised.parseOverallMark. fold cleaned.
  by rewrite H1, matchNumber_absent.
Qed.

(** In the revised parser a flag is set only together with a number. *)
Lemma revised_flags_need_number mark :
  Overall.mark (Revised.parseOverallMark mark) = NA ->
  Revised.parseOverallMark mark = Overall.mk NA false false.
Proof.
  unfold Revised.parseOverallMark.
  repeat (destruct (includes _ _); [destruct (Revised.matchNumber _ _); done|]).
  done.
Qed.

Lemma revised_courseRow_pushed elem c :
  Revised.courseRow elem = Normal (Some c) ->
  Course.link c = ListRow.href elem
  /\ Course.assignments c = []
  /\ Course.weight_table c = ∅.
Proof.
  unfold Revised.courseRow.
  destruct (Revised.notHeader _); [|done].
  case_bool_decide as Hlen; [|done]. intros H.
  do 5 (let x := fresh "x" in apply bind_Normal in H as (x & _ & H)).
  injection H as <-. done.
Qed.

Lemma revised_extractCourses_bare rows :
  Forall (fun c => Course.assignments c = [] /\ Course.weight_table c = ∅)
         (Revised.extractCourses rows).
Proof.
  unfold Revised.extractCourses.
  enough (forall courses,
            Forall (fun c => Course.assignments c = []
                             /\ Course.weight_table c = ∅) courses ->
            Forall (fun c => Course.assignments c = []
                             /\ Course.weight_table c = ∅)
                   (foldl Revised.courseStep courses rows))
    as H by by apply H.
  induction rows as [|elem rows IH]; intros courses Hc; [done|]. simpl.
  apply IH. unfold Revised.courseStep.
  destruct (Revised.courseRow elem) as [[c|]|e] eqn:E; simpl; [|done..].
  apply Forall_app. split; [done|]. apply Forall_singleton.
  by apply revised_courseRow_pushed in E as (_ & ? & ?).
Qed.

Lemma revised_parseAssignments_total rows :
  exists assignments, Revised.parseAssignments rows = Normal assignments.
Proof.
  unfold Revised.parseAssignments.
  enough (forall c acc,
            (c mod 2 = 1 -> 2 <= c -> acc <> []) ->
            exists st, Revised.eachRow (c, acc) rows = Normal st)
    as H.
  { destruct (H 1 []) as [st ->]; [lia|]. eauto. }
  induction rows as [|elem rows IH]; intros c acc Hacc; [eauto|].
  cbn [Revised.eachRow]. unfold Revised.rowStep. cbn [fst snd].
  case_bool_decide as Heven.
  - case_bool_decide as Hc.
    + destruct (Nat.mod_bound_pos c 2) as [_ Hb]; [lia..|].
      assert (c mod 2 = 1) as Hodd.
      { destruct (c mod 2) as [|[|?]] eqn:E; [|done|lia].
        apply succ_even in E. congruence. }
      destruct acc as [|a acc _] using rev_ind;
        [exfalso; apply Hacc; [done|lia|done]|].
      rewrite length_app. simpl.
      replace (length acc + 1 - 1) with (length acc) by lia.
      rewrite list_lookup_middle by done. cbn [deref mbind completion_bind].
      apply IH. intros Hm. apply succ_odd in Hodd. congruence.
    + cbn [mbind completion_bind]. apply IH. intros Hm. congruence.
  - cbn [mbind completion_bind]. apply IH. intros _ _. by destruct acc.
Qed.

End RevisedFacts.

Section RevisedHandlerFacts.
Import JsString.
Variable loadCourseList : jsstring -> list ListRow.t.
Variable loadDetail : jsstring -> DetailPage.t.
Variable Portal : Type.
Variable cookieFetch : Portal -> Fetch.t -> Portal * completion jsstring.

Abbreviation linked := (fun c : Course.t => missing (Course.link c) = false).

Lemma revised_detailLoop_spec n : forall i courses (s : session Portal),
  i + n = length courses ->
  exists s' r,
    Revised.detailLoop loadDetail Portal cookieFetch n i courses s = (s', r)
    /\ (forall courses',
          r = Normal courses' ->
          requests _ s'
          = requests _ s
            ++ ((post ∘ detailUrl) <$> filter linked (drop i courses))
          /\ length courses' = length courses
          /\ forall j c,
               courses !! j = Some c -> missing (Course.link c) = true ->
               courses' !! j = Some c).
Proof.
  induction n as [|n IH]; intros i courses s Hlen.
  - eexists _, _. split; [done|]. intros courses' [= <-].
    rewrite drop_ge by lia. simpl. by rewrite app_nil_r.
  - destruct (lookup_lt_is_Some_2 courses i) as [c Hc]; [lia|].
    cbn [Revised.detailLoop]. unfold Revised.courseDetail. rewrite Hc.
    rewrite (drop_S _ _ _ Hc), filter_cons.
    destruct (missing (Course.link c)) eqn:Hlink.
    + destruct (IH (S i) courses s) as (s' & r & -> & H); [lia|].
      eexists _, _. split; [done|]. intros courses' ->.
      destruct (H _ eq_refl) as (Hreq & Hl & Hkeep).
      rewrite decide_False by done. done.
    + destruct (fetchText Portal cookieFetch (post (detailUrl c)) s)
        as [s1 r1] eqn:E.
      apply fetchText_requests in E.
      destruct r1 as [courseText|e]; [|eexists _, _; split; done].
      destruct (revised_parseAssignments_total
                  (DetailPage.rows (loadDetail courseText))) as [assignments ->].
      set (courses1 := <[i:=_]> courses).
      destruct (IH (S i) courses1 s1) as (s' & r & -> & H);
        [unfold courses1; rewrite length_insert; lia|].
      eexists _, _. split; [done|]. intros courses' ->.
      destruct (H _ eq_refl) as (Hreq & Hl & Hkeep).
      rewrite decide_True by done. split; [|split].
      * rewrite Hreq, E. unfold courses1. rewrite drop_insert_lt by lia.
        simpl. by rewrite <- app_assoc.
      * rewrite Hl. unfold courses1. by rewrite length_insert.
      * intros j c' Hj Hmiss. apply Hkeep; [|done].
        unfold courses1. rewrite list_lookup_insert_ne; [done|].
        intros ->. congruence.
Qed.

(** X23.  The revised handler asks for the pages of the linked courses only
    and returns a course without a link as the course list gave it. *)
Theorem revised_skips_unlinked textData (s s' : session Portal) courses :
  Revised.coursePages loadCourseList loadDetail Portal cookieFetch textData s
  = (s', Normal (Reply 200 (CoursesBody courses))) ->
  requests _ s'
  = requests _ s
    ++ ((post ∘ detailUrl)
          <$> filter linked (Revised.extractCourses (loadCourseList textData)))
  /\ forall j c,
       Revised.extractCourses (loadCourseList textData) !! j = Some c ->
       Course.link c = None ->
       courses !! j = Some c
       /\ Course.assignments c = [] /\ Course.weight_table c = ∅.
Proof.
  unfold Revised.coursePages.
  set (listed := Revised.extractCourses (loadCourseList textData)).
  destruct (revised_detailLoop_spec (length listed) 0 listed s)
    as (s1 & r & -> & H); [done|].
  destruct r as [courses'|e]; [|done]. intros [= <- <-].
  destruct (H _ eq_refl) as (Hreq & _ & Hkeep). split; [done|].
  intros j c Hj Hlink. split.
  - apply Hkeep; [done|]. by rewrite Hlink.
  - pose proof (revised_extractCourses_bare (loadCourseList textData)) as Hb.
    rewrite Forall_lookup in Hb. by apply (Hb j c).
Qed.

End RevisedHandlerFacts.

(* ===================================================================== *)
(** * More about the string operations                                  *)
(* ===================================================================== *)

Section MoreStringFacts.
Import JsString.

(** An occurrence that no other one precedes is the one [cut] finds. *)
Lemma cut_of_first sep s b a :
  s = b ++ sep ++ a ->
  (forall b' a', s = b' ++ sep ++ a' -> length b <= length b') ->
  cut sep s = Some (b, a).
Proof.
  intros Hs Hfirst. destruct (cut_app sep b a) as [[b0 a0] E].
  rewrite <- Hs in E. rewrite E.
  pose proof (cut_first _ _ _ _ E _ _ Hs) as H1.
  pose proof (cut_Some _ _ _ _ E) as Hs0.
  pose proof (Hfirst _ _ Hs0) as H2.
  rewrite Hs in Hs0. apply app_inj_1 in Hs0 as [-> Hs0]; [|lia].
  by apply app_inv_head in Hs0 as ->.
Qed.

(** The text before a separator does not hold the separator. *)
Lemma before_no_sep sep s : sep <> [] -> includes sep (before sep s) = false.
Proof.
  intros Hsep. unfold before.
  destruct (cut sep s) as [[b a]|] eqn:E; [|by apply includes_false_cut].
  destruct (includes sep b) eqn:Hb; [|done].
  apply includes_spec in Hb as (b' & a' & ->).
  pose proof (cut_Some _ _ _ _ E) as Hs.
  assert (s = b' ++ sep ++ (a' ++ sep ++ a)) as Hs'
    by (rewrite Hs, <- !app_assoc; done).
  pose proof (cut_first _ _ _ _ E _ _ Hs') as Hlen.
  rewrite !length_app in Hlen. destruct sep; [done|]. simpl in Hlen. lia.
Qed.

Lemma join_nil_cons p ps : join [] (p :: ps) = p ++ join [] ps.
Proof. destruct ps; simpl; [by rewrite app_nil_r|done]. Qed.

Lemma cut_char c s :
  match cut [c] s with
  | Some (b, a) =>
      filter (fun x => x <> c) s = b ++ filter (fun x => x <> c) a
      /\ length a < length s
  | None => filter (fun x => x <> c) s = s
  end.
Proof.
  induction s as [|x s IH]; [done|]. rewrite cut_unfold. simpl.
  destruct (c =? x)%N eqn:E; simpl.
  - apply N.eqb_eq in E as <-. rewrite filter_cons_False by tauto.
    rewrite drop_0. split; [done|lia].
  - apply N.eqb_neq in E. rewrite filter_cons_True by congruence.
    destruct (cut [c] s) as [[b a]|].
    + destruct IH as [-> ?]. split; [done|simpl; lia].
    + by rewrite IH.
Qed.

(** Replacing a one-unit pattern by nothing removes every occurrence. *)
Lemma replaceAll_char c s :
  replaceAll [c] [] s = filter (fun x => x <> c) s.
Proof.
  unfold replaceAll.
  induction s as [s IH] using (induction_ltof1 _ length). unfold ltof in IH.
  rewrite split_unfold by done. pose proof (cut_char c s) as H.
  destruct (cut [c] s) as [[b a]|].
  - destruct H as [-> Hlen]. rewrite join_nil_cons. f_equal. by apply IH.
  - by rewrite H.
Qed.

End MoreStringFacts.

(* ===================================================================== *)
(** * More about the overall mark                                       *)
(* ===================================================================== *)

Section MoreOverallMarkFacts.
Import JsString JsNumber.

Lemma numberAfter_cases token mark :
  token <> [] ->
  (includes token mark = false /\ numberAfter token mark = Throw TypeError)
  \/ (includes token mark = true
      /\ exists x, numberAfter token mark = Normal x).
Proof.
  intros Ht. destruct (includes token mark) eqn:E.
  - right. split; [done|]. apply includes_cut in E as [[pre after] E].
    rewrite (numberAfter_cut _ _ _ _ Ht E). eauto.
  - left. split; [done|]. by apply numberAfter_absent.
Qed.

Lemma overall_flags mark r :
  parseOverallMark mark = Normal r ->
  Overall.isFinal r && Overall.isMidterm r = false.
Proof.
  unfold parseOverallMark.
  repeat (destruct (includes _ _);
          [by intros (x & _ & [= <-])%bind_Normal|]).
  by intros [= <-].
Qed.

(** X1.  Whatever [parseOverallMark] returns is either the sentinel with both
    flags off or a number with at most one flag on: the two flags are never
    on together and the sentinel never carries a flag. *)
Theorem overall_flags_exclusive mark r :
  parseOverallMark mark = Normal r ->
  r = Overall.mk NA false false
  \/ exists x,
       Overall.mark r = Num x
       /\ (Overall.isFinal r && Overall.isMidterm r = false).
Proof.
  unfold parseOverallMark.
  set (cleaned := replaceAll (lit " ") (lit "") mark).
  destruct (includes (lit "FINAL") cleaned).
  { intros (x & _ & [= <-])%bind_Normal. right. eauto. }
  destruct (includes (lit "currentmark") cleaned).
  { intros (x & _ & [= <-])%bind_Normal. right. eauto. }
  destruct (includes (lit "MIDTERM") cleaned).
  { intros (x & _ & [= <-])%bind_Normal. right. eauto. }
  intros [= <-]. by left.
Qed.

Lemma overall_flags_exclusive_witness :
  Overall.mk (Num (Decimal false 64 0)) false true
  = Overall.mk NA false false
  \/ exists x,
       Num (Decimal false 64 0) = Num x /\ (false && true = false).
Proof.
  apply (overall_flags_exclusive (lit "MIDTERM MARK: 64%")
           (Overall.mk (Num (Decimal false 64 0)) false true)).
  reflexivity.
Defined.

(** X2.  [parseOverallMark] raises in exactly one situation: the first of the
    words "FINAL", "currentmark", "MIDTERM" that occurs in the text (spaces
    removed) occurs without the token its number is read after
    ("FINALMARK:", "currentmark=", "MIDTERMMARK:").  The error is a
    [TypeError]. *)
Theorem overall_raises_iff mark :
  let cleaned := replaceAll (lit " ") (lit "") mark in
  parseOverallMark mark = Throw TypeError
  <-> (includes (lit "FINAL") cleaned = true
       /\ includes (lit "FINALMARK:") cleaned = false)
      \/ (includes (lit "FINAL") cleaned = false
          /\ includes (lit "currentmark") cleaned = true
          /\ includes (lit "currentmark=") cleaned = false)
      \/ (includes (lit "FINAL") cleaned = false
          /\ includes (lit "currentmark") cleaned = false
          /\ includes (lit "MIDTERM") cleaned = true
          /\ includes (lit "MIDTERMMARK:") cleaned = false).
Proof.
  intros cleaned. unfold parseOverallMark. fold cleaned.
  destruct (includes (lit "FINAL") cleaned).
  { destruct (numberAfter_cases (lit "FINALMARK:") cleaned) as [[-> ->]|(-> & x & ->)];
      [done| |]; simpl; [naive_solver|].
    split; [done|]. intros [[_ ?]|[[? _]|[? _]]]; done. }
  destruct (includes (lit "currentmark") cleaned).
  { destruct (numberAfter_cases (lit "currentmark=") cleaned) as [[-> ->]|(-> & x & ->)];
      [done| |]; simpl; [naive_solver|].
    split; [done|]. intros [[? _]|[(_ & _ & ?)|(_ & ? & _)]]; done. }
  destruct (includes (lit "MIDTERM") cleaned).
  { destruct (numberAfter_cases (lit "MIDTERMMARK:") cleaned) as [[-> ->]|(-> & x & ->)];
      [done| |]; simpl; [naive_solver|].
    split; [done|]. intros [[? _]|[(_ & ? & _)|(_ & _ & _ & ?)]]; done. }
  simpl. split; [done|]. intros [[? _]|[(_ & ? & _)|(_ & _ & ? & _)]]; done.
Qed.

(** Every error of [parseOverallMark] is a [TypeError]. *)
Lemma overall_raises_TypeError mark e :
  parseOverallMark mark = Throw e -> e = TypeError.
Proof.
  unfold parseOverallMark.
  set (cleaned := replaceAll (lit " ") (lit "") mark).
  assert (forall token (k : number -> Overall.t),
            token <> [] ->
            numberAfter token cleaned ≫= (fun x => Normal (k x)) = Throw e ->
            e = TypeError) as H.
  { intros token k Ht.
    destruct (numberAfter_cases token cleaned Ht) as [[_ ->]|(_ & x & ->)];
      simpl; congruence. }
  repeat (destruct (includes _ cleaned); [by apply H|]). done.
Qed.

(** X3.  A current mark has priority over a midterm mark: when the text
    (spaces removed) has no "FINAL" and holds the token "currentmark=",
    the mark is read after the first "currentmark=" up to the next "%", and
    both flags are off, whether or not a midterm banner is in the text. *)
Theorem current_mark_before_midterm mark :
  let cleaned := replaceAll (lit " ") (lit "") mark in
  includes (lit "FINAL") cleaned = false ->
  includes (lit "currentmark=") cleaned = true ->
  exists pre after,
    cleaned = pre ++ lit "currentmark=" ++ after
    /\ (forall pre' after',
          cleaned = pre' ++ lit "currentmark=" ++ after' ->
          length pre <= length pre')
    /\ parseOverallMark mark
       = Normal (Overall.mk
                   (Num (parseFloat (before (lit "%")
                                       (before (lit "currentmark=") after))))
                   false false).
Proof.
  intros cleaned HF H.
  assert (HC : includes (lit "currentmark") cleaned = true)
    by (apply (includes_prefix _ (lit "=")), H).
  apply includes_cut in H as [[pre after] E].
  exists pre, after. split; [by apply cut_Some|].
  split; [by apply (cut_first _ _ _ _ E)|].
  unfold parseOverallMark. fold cleaned. rewrite HF, HC.
  by rewrite (numberAfter_cut _ _ pre after).
Qed.

Lemma current_mark_before_midterm_witness :
  exists pre after,
    lit "MIDTERMMARK:64%currentmark=72.3%" = pre ++ lit "currentmark=" ++ after
    /\ (forall pre' after',
          lit "MIDTERMMARK:64%currentmark=72.3%"
          = pre' ++ lit "currentmark=" ++ after' ->
          length pre <= length pre')
    /\ parseOverallMark (lit "MIDTERM MARK: 64% current mark = 72.3%")
       = Normal (Overall.mk
                   (Num (parseFloat (before (lit "%")
                                       (before (lit "currentmark=") after))))
                   false false).
Proof.
  apply (current_mark_before_midterm
           (lit "MIDTERM MARK: 64% current mark = 72.3%")); reflexivity.
Defined.

(** X4.  A midterm mark is used only when nothing else is there: when the
    text (spaces removed) has neither "FINAL" nor "currentmark" and holds
    the token "MIDTERMMARK:", the mark is read after the first
    "MIDTERMMARK:" up to the next "%" and [isMidterm] alone is on. *)
Theorem midterm_mark_last mark :
  let cleaned := replaceAll (lit " ") (lit "") mark in
  includes (lit "FINAL") cleaned = false ->
  includes (lit "currentmark") cleaned = false ->
  includes (lit "MIDTERMMARK:") cleaned = true ->
  exists pre after,
    cleaned = pre ++ lit "MIDTERMMARK:" ++ after
    /\ (forall pre' after',
          cleaned = pre' ++ lit "MIDTERMMARK:" ++ after' ->
          length pre <= length pre')
    /\ parseOverallMark mark
       = Normal (Overall.mk
                   (Num (parseFloat (before (lit "%")
                                       (before (lit "MIDTERMMARK:") after))))
                   false true).
Proof.
  intros cleaned HF HC H.
  assert (HM : includes (lit "MIDTERM") cleaned = true)
    by (apply (includes_prefix _ (lit "MARK:")), H).
  apply includes_cut in H as [[pre after] E].
  exists pre, after. split; [by apply cut_Some|].
  split; [by apply (cut_first _ _ _ _ E)|].
  unfold parseOverallMark. fold cleaned. rewrite HF, HC, HM.
  by rewrite (numberAfter_cut _ _ pre after).
Qed.

Lemma midterm_mark_last_witness :
  exists pre after,
    lit "MIDTERMMARK:64%" = pre ++ lit "MIDTERMMARK:" ++ after
    /\ (forall pre' after',
          lit "MIDTERMMARK:64%" = pre' ++ lit "MIDTERMMARK:" ++ after' ->
          length pre <= length pre')
    /\ parseOverallMark (lit "MIDTERM MARK: 64%")
       = Normal (Overall.mk
                   (Num (parseFloat (before (lit "%")
                                       (before (lit "MIDTERMMARK:") after))))
                   false true).
Proof.
  apply (midterm_mark_last (lit "MIDTERM MARK: 64%")); reflexivity.
Defined.

(** X5.  Spaces in the mark text are of no account: a space put in anywhere
    changes neither the result nor the error. *)
Theorem overall_ignores_spaces a b :
  parseOverallMark (a ++ lit " " ++ b) = parseOverallMark (a ++ b).
Proof.
  unfold parseOverallMark.
  replace (replaceAll (lit " ") (lit "") (a ++ lit " " ++ b))
    with (replaceAll (lit " ") (lit "") (a ++ b)); [done|].
  change (lit " ") with [32%N]. change (lit "") with (@nil N).
  rewrite !replaceAll_char, !filter_app. done.
Qed.

End MoreOverallMarkFacts.

(* ===================================================================== *)
(** * More about the course list                                        *)
(* ===================================================================== *)

Section MoreCourseListFacts.
Import JsString JsNumber.

Lemma orElse_nonempty v d : d <> [] -> orElse v d <> [].
Proof. intros Hd. unfold orElse. by destruct v as [[|]|]. Qed.

Lemma orElse_without sep v d :
  includes sep d = false ->
  (forall s, v = Some s -> includes sep s = false) ->
  includes sep (orElse v d) = false.
Proof.
  intros Hd Hv. unfold orElse. destruct v as [s|]; [|done].
  destruct (JsString.truthy s); [by apply Hv|done].
Qed.

Lemma lookup_compact_is_Some elem i :
  i < length (courseLines elem) -> is_Some (courseLines elem !! i).
Proof. apply lookup_lt_is_Some_2. Qed.

(** The fields of a row that passes the tests, read off its lines. *)
Lemma courseRow_fields elem :
  includes newline (ListRow.text elem) = true ->
  (forall line1, split newline (ListRow.text elem) !! 1 = Some line1 ->
                 includes (lit "Course Name") line1 = false) ->
  3 < length (courseLines elem) ->
  exists f0 f1 f2 f3,
    courseLines elem !! 0 = Some f0 /\ courseLines elem !! 1 = Some f1
    /\ courseLines elem !! 2 = Some f2 /\ courseLines elem !! 3 = Some f3
    /\ courseRow elem
       = overall ← parseOverallMark (markText elem);
         Normal (Some {|
           Course.code := orElse (split (lit " : ") f0 !! 0) (lit "Unknown Code");
           Course.name := orElse (split (lit " : ") f0 !! 1) (lit "Unknown Course");
           Course.block :=
             orElse (split (lit " ") (replace (lit "Block: P") (lit "") f1) !! 0)
                    (lit "N/A");
           Course.room := orElse (split (lit "rm. ") f1 !! 1) (lit "Unknown Room");
           Course.start_time := orElse (split (lit " ") f2 !! 0) (lit "");
           Course.end_time := (courseTimes f3).1;
           Course.dropped_time := (courseTimes f3).2;
           Course.overall_mark := orNA (Overall.mark overall);
           Course.isFinal := Overall.isFinal overall;
           Course.isMidterm := Overall.isMidterm overall;
           Course.link := ListRow.href elem;
           Course.assignments := [];
           Course.weight_table := ∅;
         |}).
Proof.
  intros Hnl Hhead Hlen.
  destruct (lookup_compact_is_Some elem 0) as [f0 H0]; [lia|].
  destruct (lookup_compact_is_Some elem 1) as [f1 H1]; [lia|].
  destruct (lookup_compact_is_Some elem 2) as [f2 H2]; [lia|].
  destruct (lookup_compact_is_Some elem 3) as [f3 H3]; [lia|].
  exists f0, f1, f2, f3. do 4 (split; [done|]).
  unfold courseRow. fold (courseLines elem). fold (markText elem).
  apply includes_cut in Hnl as [[b a] Hcut].
  rewrite (split_1 newline) in Hhead |- * by done. rewrite Hcut in Hhead |- *.
  cbn [deref mbind completion_bind]. rewrite (Hhead _ eq_refl). cbn [negb].
  rewrite bool_decide_eq_true_2 by done.
  destruct (parseOverallMark (markText elem)) as [overall|e]; [|done].
  cbn [mbind completion_bind]. rewrite H0, H1, H2, H3.
  cbn [deref mbind completion_bind]. unfold courseTimes.
  destruct (includes (lit "Dropped on") f3) eqn:Hd.
  - rewrite (split_0 (lit "Dropped")), (split_1 (lit "Dropped on")) by done.
    apply includes_cut in Hd as [[e d] Hd]. rewrite Hd.
    cbn [deref mbind completion_bind fst snd]. done.
  - cbn [deref mbind completion_bind fst snd]. done.
Qed.

Lemma second_line_iff text :
  is_Some (split newline text !! 1) <-> includes newline text = true.
Proof.
  rewrite (split_1 newline) by done. rewrite includes_cut.
  destruct (cut newline text) as [[b a]|]; split; intros [? ?]; eauto; done.
Qed.

(** The tests a row has passed when it gives a course. *)
Lemma courseRow_pushed_tests elem c :
  courseRow elem = Normal (Some c) ->
  (exists line1,
     split newline (ListRow.text elem) !! 1 = Some line1
     /\ includes (lit "Course Name") line1 = false)
  /\ 3 < length (courseLines elem)
  /\ exists overall, parseOverallMark (markText elem) = Normal overall.
Proof.
  intros E. pose proof (courseRow_pushed _ _ E) as (Hlen & o & Ho & _).
  split; [|eauto]. unfold courseRow in E.
  destruct (split newline (ListRow.text elem) !! 1) as [line1|]; [|done].
  exists line1. split; [done|]. cbn [deref mbind completion_bind] in E.
  by destruct (includes (lit "Course Name") line1).
Qed.

(** X6.  A row gives a course exactly when its text has a second line, that
    line does not contain "Course Name", the row has more than three
    non-empty lines, and [parseOverallMark] returns on its fifth line (or on
    the empty string when there is none).  No other read of the row can
    fail. *)
Theorem course_pushed_iff elem :
  is_Some (courseOf elem)
  <-> (exists line1,
         split newline (ListRow.text elem) !! 1 = Some line1
         /\ includes (lit "Course Name") line1 = false)
      /\ 3 < length (courseLines elem)
      /\ exists overall, parseOverallMark (markText elem) = Normal overall.
Proof.
  unfold courseOf. split.
  - destruct (courseRow elem) as [[c|]|e] eqn:E; try by intros [? ?].
    intros _. by apply (courseRow_pushed_tests elem c).
  - intros ((line1 & H1 & Hh) & Hlen & o & Ho).
    destruct (courseRow_fields elem) as (f0 & f1 & f2 & f3 & _ & _ & _ & _ & ->);
      [apply second_line_iff; eauto| |done|].
    + intros l Hl. congruence.
    + rewrite Ho. simpl. eauto.
Qed.

Lemma course_pushed_iff_witness :
  is_Some (courseOf Sample.unlinked).
Proof.
  apply (course_pushed_iff Sample.unlinked).
  split; [eexists; split; reflexivity|]. split; [vm_compute; lia|].
  eexists. reflexivity.
Defined.

(** X7.  A row raises (and is then logged and dropped) in exactly two
    situations: its text has no line break at all, or it passes the header
    and length tests and [parseOverallMark] raises on its mark text.  The
    error is always a [TypeError]. *)
Theorem course_raises_iff elem e :
  courseRow elem = Throw e
  <-> e = TypeError
      /\ (includes newline (ListRow.text elem) = false
          \/ ((exists line1,
                 split newline (ListRow.text elem) !! 1 = Some line1
                 /\ includes (lit "Course Name") line1 = false)
              /\ 3 < length (courseLines elem)
              /\ parseOverallMark (markText elem) = Throw TypeError)).
Proof.
  split.
  - intros E.
    destruct (split newline (ListRow.text elem) !! 1) as [line1|] eqn:H1.
    + assert (includes newline (ListRow.text elem) = true) as Hnl
        by (apply second_line_iff; eauto).
      destruct (includes (lit "Course Name") line1) eqn:Hh.
      { unfold courseRow in E. rewrite H1 in E.
        cbn [deref mbind completion_bind] in E. by rewrite Hh in E. }
      destruct (decide (3 < length (courseLines elem))) as [Hlen|Hlen].
      * destruct (courseRow_fields elem Hnl) as (?&?&?&?&_&_&_&_&E'); [|done|].
        { intros l Hl. congruence. }
        rewrite E' in E.
        destruct (parseOverallMark (markText elem)) as [o|e'] eqn:Ho; [done|].
        injection E as ->. apply overall_raises_TypeError in Ho as ->.
        split; [done|]. right. eauto.
      * destruct (courseRow_short elem) as [E'|E']; [lia|congruence|].
        unfold courseRow in E'. rewrite H1 in E'.
        cbn [deref mbind completion_bind] in E'. rewrite Hh in E'.
        cbn [negb] in E'. fold (courseLines elem) in E'.
        by rewrite bool_decide_eq_false_2 in E'.
    + unfold courseRow in E. rewrite H1 in E. injection E as <-.
      split; [done|]. left.
      destruct (includes newline (ListRow.text elem)) eqn:Hnl; [|done].
      apply second_line_iff in Hnl as [? ?]. congruence.
  - intros [-> [Hnl|((line1 & H1 & Hh) & Hlen & Ho)]].
    + unfold courseRow. by rewrite (split_1_None newline).
    + destruct (courseRow_fields elem) as (?&?&?&?&_&_&_&_&->);
        [apply second_line_iff; eauto| |done|].
      * intros l Hl. congruence.
      * by rewrite Ho.
Qed.

Lemma course_raises_iff_witness :
  courseRow (ListRow.mk None (lit "no line break")) = Throw TypeError.
Proof.
  apply (course_raises_iff (ListRow.mk None (lit "no line break")) TypeError).
  split; [reflexivity|]. left. reflexivity.
Defined.

Lemma courseStep_courseOf courses elem :
  courseStep courses elem = courses ++ option_list (courseOf elem).
Proof.
  unfold courseStep, courseOf.
  destruct (courseRow elem) as [[c|]|e]; simpl; by rewrite ?app_nil_r.
Qed.

Lemma foldl_courseStep rows : forall courses,
  foldl courseStep courses rows = courses ++ omap courseOf rows.
Proof.
  induction rows as [|elem rows IH]; intros courses; simpl.
  - by rewrite app_nil_r.
  - rewrite IH, courseStep_courseOf, <- app_assoc. f_equal.
    by destruct (courseOf elem).
Qed.

Lemma omap_length_le {A B} (f : A -> option B) (l : list A) :
  length (omap f l) <= length l.
Proof.
  induction l as [|x l IH]; csimpl; [done|]. destruct (f x); csimpl; lia.
Qed.

(** X8.  The course list is the rows' courses in document order, each row
    judged on its own: a row that is passed over or that raises takes
    nothing away from the rows before or after it.  So the list of a page
    is the concatenation of the lists of its parts, and it is never longer
    than the table. *)
Theorem courses_row_by_row rows rows' :
  extractCourses rows = omap courseOf rows
  /\ extractCourses (rows ++ rows') = extractCourses rows ++ extractCourses rows'
  /\ length (extractCourses rows) <= length rows.
Proof.
  assert (forall l, extractCourses l = omap courseOf l) as H
    by (intros l; unfold extractCourses; by rewrite foldl_courseStep).
  split; [apply H|]. split.
  - by rewrite !H, omap_app.
  - rewrite H. apply omap_length_le.
Qed.

End MoreCourseListFacts.

Section TrimFacts.
Import JsString.

Lemma trimStart_idemp s : trimStart (trimStart s) = trimStart s.
Proof.
  induction s as [|c s IH]; [done|]. simpl.
  destruct (isWhiteSpace c) eqn:E; [done|]. simpl. by rewrite E.
Qed.

Lemma trimStart_snoc v c :
  isWhiteSpace c = false -> exists u, trimStart (v ++ [c]) = u ++ [c].
Proof.
  intros Hc. induction v as [|x v IH]; simpl.
  - rewrite Hc. by exists [].
  - destruct (isWhiteSpace x); [done|]. by exists (x :: v).
Qed.

Lemma trimStart_fixed s :
  trimStart s = s <->
  match s with [] => True | c :: _ => isWhiteSpace c = false end.
Proof.
  destruct s as [|c s]; [done|]. simpl.
  destruct (isWhiteSpace c) eqn:E; [|done]. split; [|done].
  intros H. assert (length (trimStart s) <= length s) as Hlen.
  { clear. induction s as [|x s IH]; simpl; [done|].
    destruct (isWhiteSpace x); simpl; lia. }
  rewrite H in Hlen. simpl in Hlen. lia.
Qed.

Lemma trimEnd_keeps_head s :
  trimStart s = s -> trimStart (trimEnd s) = trimEnd s.
Proof.
  intros H. apply trimStart_fixed. apply trimStart_fixed in H.
  destruct s as [|c s]; [done|]. unfold trimEnd. rewrite reverse_cons.
  destruct (trimStart_snoc (reverse s) c H) as [u ->].
  by rewrite reverse_app.
Qed.

Lemma trimEnd_idemp s : trimEnd (trimEnd s) = trimEnd s.
Proof. unfold trimEnd. by rewrite reverse_involutive, trimStart_idemp. Qed.

(** Trimming what is trimmed changes nothing. *)
Lemma trim_idemp s : trim (trim s) = trim s.
Proof.
  unfold trim. rewrite (trimEnd_keeps_head (trimStart s)), trimEnd_idemp; [done|].
  apply trimStart_idemp.
Qed.

End TrimFacts.

Section CourseFieldFacts.
Import JsString JsNumber.

Lemma first_part_without sep s d :
  sep <> [] -> includes sep d = false ->
  includes sep (orElse (split sep s !! 0) d) = false.
Proof.
  intros Hsep Hd. apply orElse_without; [done|].
  intros x. rewrite split_0 by done. intros [= <-]. by apply before_no_sep.
Qed.

(** The course of a row, with the values its fields were read from. *)
Lemma courseRow_pushed_fields elem c :
  courseRow elem = Normal (Some c) ->
  exists f0 f1 f2 f3 overall,
    courseLines elem !! 0 = Some f0 /\ courseLines elem !! 1 = Some f1
    /\ courseLines elem !! 2 = Some f2 /\ courseLines elem !! 3 = Some f3
    /\ parseOverallMark (markText elem) = Normal overall
    /\ c = {|
         Course.code := orElse (split (lit " : ") f0 !! 0) (lit "Unknown Code");
         Course.name := orElse (split (lit " : ") f0 !! 1) (lit "Unknown Course");
         Course.block :=
           orElse (split (lit " ") (replace (lit "Block: P") (lit "") f1) !! 0)
                  (lit "N/A");
         Course.room := orElse (split (lit "rm. ") f1 !! 1) (lit "Unknown Room");
         Course.start_time := orElse (split (lit " ") f2 !! 0) (lit "");
         Course.end_time := (courseTimes f3).1;
         Course.dropped_time := (courseTimes f3).2;
         Course.overall_mark := orNA (Overall.mark overall);
         Course.isFinal := Overall.isFinal overall;
         Course.isMidterm := Overall.isMidterm overall;
         Course.link := ListRow.href elem;
         Course.assignments := [];
         Course.weight_table := ∅;
       |}.
Proof.
  intros E.
  pose proof (courseRow_pushed_tests _ _ E) as ((line1 & H1 & Hh) & Hlen & o & Ho).
  destruct (courseRow_fields elem) as (f0 & f1 & f2 & f3 & ? & ? & ? & ? & E');
    [apply second_line_iff; eauto| |done|].
  { intros l Hl. congruence. }
  rewrite E', Ho in E. injection E as <-.
  exists f0, f1, f2, f3, o. done.
Qed.

(** X9.  The descriptive fields of a course are never empty (a missing part
    is replaced by its placeholder), and what is cut off at a separator does
    not hold it: the code has no " : ", the block and the start time have no
    space. *)
Theorem course_fields_filled elem c :
  courseRow elem = Normal (Some c) ->
  Course.code c <> [] /\ Course.name c <> [] /\ Course.block c <> []
  /\ Course.room c <> []
  /\ includes (lit " : ") (Course.code c) = false
  /\ includes (lit " ") (Course.block c) = false
  /\ includes (lit " ") (Course.start_time c) = false.
Proof.
  intros (f0 & f1 & f2 & f3 & o & _ & _ & _ & _ & _ & ->)%courseRow_pushed_fields.
  cbn [Course.code Course.name Course.block Course.room Course.start_time].
  repeat split; try (by apply orElse_nonempty); by apply first_part_without.
Qed.

Lemma course_fields_filled_witness :
  exists c,
    courseRow Sample.unlinked = Normal (Some c)
    /\ Course.code c <> [] /\ Course.name c <> [] /\ Course.block c <> []
    /\ Course.room c <> []
    /\ includes (lit " : ") (Course.code c) = false
    /\ includes (lit " ") (Course.block c) = false
    /\ includes (lit " ") (Course.start_time c) = false.
Proof.
  eexists. split; [vm_compute; reflexivity|].
  eapply (course_fields_filled Sample.unlinked). reflexivity.
Defined.

(** X10.  The overall mark of a course is the sentinel or a number that is
    neither [NaN] nor zero, and the course is never final and midterm at
    once. *)
Theorem course_mark_sound elem c :
  courseRow elem = Normal (Some c) ->
  (Course.overall_mark c = NA
   \/ exists x,
        Course.overall_mark c = Num x /\ x <> NaN /\ isZero x = false)
  /\ (Course.isFinal c && Course.isMidterm c = false).
Proof.
  intros (f0 & f1 & f2 & f3 & o & _ & _ & _ & _ & Ho & ->)%courseRow_pushed_fields.
  cbn [Course.overall_mark Course.isFinal Course.isMidterm]. split.
  - unfold orNA. destruct (Overall.mark o) as [|x]; [by left|].
    destruct (truthy x) eqn:Hx; [|by left]. right. exists x.
    split; [done|]. unfold truthy in Hx.
    destruct x; [done| |]; split; try done; by apply negb_true_iff.
  - by apply (overall_flags (markText elem)).
Qed.

Lemma course_mark_sound_witness :
  exists c,
    courseRow Sample.unlinked = Normal (Some c)
    /\ (Course.overall_mark c = NA
        \/ exists x,
             Course.overall_mark c = Num x /\ x <> NaN /\ isZero x = false)
    /\ (Course.isFinal c && Course.isMidterm c = false).
Proof.
  eexists. split; [vm_compute; reflexivity|].
  eapply (course_mark_sound Sample.unlinked). reflexivity.
Defined.

(** X11.  The fourth line gives the two times.  Without "Dropped on" in it,
    the whole line is the end time and the dropped time is empty.  With
    it, the end time is what precedes the first "Dropped" and the dropped
    time is what follows the first "Dropped on", up to a second one if
    there is one.  Both are trimmed. *)
Theorem course_times elem c f3 :
  courseRow elem = Normal (Some c) ->
  courseLines elem !! 3 = Some f3 ->
  (includes (lit "Dropped on") f3 = false ->
   Course.end_time c = trim f3 /\ Course.dropped_time c = [])
  /\ (forall e d,
        cut (lit "Dropped on") f3 = Some (e, d) ->
        Course.end_time c = trim (before (lit "Dropped") f3)
        /\ Course.dropped_time c = trim (before (lit "Dropped on") d)
        /\ length (before (lit "Dropped") f3) <= length e)
  /\ trim (Course.end_time c) = Course.end_time c
  /\ trim (Course.dropped_time c) = Course.dropped_time c.
Proof.
  intros (f0 & f1 & f2 & f3' & o & _ & _ & _ & H3 & _ & ->)%courseRow_pushed_fields.
  rewrite H3. intros [= ->].
  cbn [Course.end_time Course.dropped_time]. unfold courseTimes.
  split; [by intros ->|]. split.
  - intros e d Hcut.
    assert (includes (lit "Dropped on") f3 = true) as ->
      by (apply includes_cut; rewrite Hcut; eauto).
    rewrite Hcut. cbn [fst snd]. split; [done|]. split; [done|].
    unfold before. destruct (cut (lit "Dropped") f3) as [[e0 r]|] eqn:E0.
    + apply (cut_first _ _ _ _ E0 e (lit " on" ++ d)).
      by rewrite (cut_Some _ _ _ _ Hcut).
    + apply includes_false_cut in E0.
      assert (includes (lit "Dropped") f3 = true); [|congruence].
      apply (includes_prefix _ (lit " on")), includes_cut.
      change (lit "Dropped" ++ lit " on") with (lit "Dropped on").
      rewrite Hcut. eauto.
  - destruct (includes (lit "Dropped on") f3); cbn [fst snd];
      split; (apply trim_idemp || done).
Qed.

Lemma course_times_witness :
  let row :=
    ListRow.mk None
      (join newline
         [lit ""; lit "MHF4U1-03 : Advanced Functions"; lit "Block: P3 - rm. 118";
          lit "2024-02-05 ~"; lit "  Jun 20  Dropped on  May 15 "]) in
  courseLines row !! 3 = Some (lit "Jun 20  Dropped on  May 15")
  /\ exists c,
       courseRow row = Normal (Some c)
       /\ Course.end_time c = lit "Jun 20"
       /\ Course.dropped_time c = lit "May 15".
Proof.
  intros row. split; [reflexivity|].
  destruct (courseRow row) as [[c|]|e] eqn:E; [|discriminate E..].
  exists c. split; [reflexivity|].
  destruct (course_times row c (lit "Jun 20  Dropped on  May 15") E)
    as (_ & H & _); [reflexivity|].
  destruct (H (lit "Jun 20  ") (lit "  May 15") eq_refl) as (He & Hd & _).
  split; [exact He|exact Hd].
Defined.

(** X12.  Every line the fields are read from is non-empty and has no white
    space at either end. *)
Theorem course_lines_trimmed elem line :
  line ∈ courseLines elem -> line <> [] /\ trim line = line.
Proof.
  unfold courseLines, compact. intros [Hlen Hin]%list_elem_of_filter.
  split; [by destruct line; [simpl in Hlen; lia|]|].
  apply list_elem_of_fmap in Hin as (raw & -> & _). apply trim_idemp.
Qed.

Lemma course_lines_trimmed_witness :
  lit "Block: P1 - rm. 204" <> []
  /\ trim (lit "Block: P1 - rm. 204") = lit "Block: P1 - rm. 204".
Proof.
  apply (course_lines_trimmed Sample.unlinked).
  apply (bool_decide_unpack _). reflexivity.
Defined.

End CourseFieldFacts.

(* ===================================================================== *)
(** * More about the detail page                                        *)
(* ===================================================================== *)

Lemma fst_unique {A B} (l : list (A * B)) x y1 y2 :
  NoDup l.*1 -> (x, y1) ∈ l -> (x, y2) ∈ l -> y1 = y2.
Proof.
  induction l as [|[x' y'] l IH]; csimpl; [by intros _ ?%elem_of_nil|].
  intros [Hfresh Hnd]%NoDup_cons [[= -> ->]|H1]%elem_of_cons
    [[= ->]|H2]%elem_of_cons; [done| | |by apply IH].
  - destruct Hfresh. apply list_elem_of_fmap. by exists (x', y2).
  - destruct Hfresh. apply list_elem_of_fmap. by exists (x', y1).
Qed.

Section MoreAssignmentFacts.
Import JsString JsNumber.

(** X13.  The categories of an assignment are exactly those of the six whose
    coloured cell has text left after tabs are removed and the text is
    trimmed; no other property is ever set, and each entry is an array of
    one mark. *)
Theorem category_present_iff elem key :
  (is_Some (Assignment.categories (assignmentRow elem) !! key)
   <-> exists color,
         (key, color) ∈ assignmentColors /\ categoryText elem color <> [])
  /\ (forall entry,
        Assignment.categories (assignmentRow elem) !! key = Some entry ->
        length entry = 1).
Proof.
  destruct (decide (key ∈ assignmentColors.*1)) as [Hin|Hout].
  - apply list_elem_of_fmap in Hin as ([key' color] & -> & Hin). simpl.
    rewrite (assignmentRow_lookup _ _ color Hin). unfold expectedEntry.
    split.
    + split.
      * intros Hs. exists color. split; [done|]. revert Hs.
        destruct (categoryText elem color); [by intros [? ?]|done].
      * intros (color' & Hin' & Hne).
        assert (color' = color) as ->.
        { eapply (fst_unique assignmentColors); eauto using assignmentColors_NoDup. }
        destruct (categoryText elem color); [done|]. simpl. eauto.
    + intros entry. destruct (JsString.truthy _); [|done]. by intros [= <-].
  - unfold assignmentRow. rewrite foldl_categoryStep_other by done. simpl.
    rewrite lookup_empty. split; [|done]. split; [by intros [? ?]|].
    intros (color & Hin & _). destruct Hout.
    apply list_elem_of_fmap. by exists (key, color).
Qed.

Lemma category_present_iff_witness :
  is_Some (Assignment.categories (assignmentRow Sample.test) !! "KU"%string).
Proof.
  apply (proj1 (category_present_iff Sample.test "KU")).
  exists "ffffaa"%string. split; [|discriminate].
  apply (bool_decide_unpack _). reflexivity.
Defined.

(** X14.  How a cell text is taken apart: the points earned are read before
    the first " / ", the points possible after it up to the next " = " (or
    " / "), and the weight after the first "weight=" up to the end of its
    line. *)
Theorem mark_fields category g r p w :
  cut (lit " / ") category = Some (g, r) ->
  cut (lit "weight=") category = Some (p, w) ->
  parseMark category
  = Normal (Mark.mk
              (parseFloat g)
              (parseFloat (before (lit " = ") (before (lit " / ") r)))
              (parseFloat (before newline (before (lit "weight=") w)))
              (negb (includes (lit "finished") category))).
Proof.
  intros E1 E2. unfold parseMark.
  rewrite (split_0 (lit " / ")), (split_1 (lit " / ")),
    (split_1 (lit "weight=")), E1, E2 by done.
  cbn [deref mbind completion_bind toString].
  rewrite (split_0 (lit " = ")), (split_0 newline) by done.
  unfold before at 1. by rewrite E1.
Qed.

Lemma mark_fields_witness :
  parseMark (lit "17.5 / 20 = 88% weight=10")
  = Normal (Mark.mk (Decimal false 175 (-1)) (Decimal false 20 0)
                    (Decimal false 10 0) true).
Proof.
  apply (mark_fields (lit "17.5 / 20 = 88% weight=10")
           (lit "17.5") (lit "20 = 88% weight=10")
           (lit "17.5 / 20 = 88% ") (lit "10"));
    reflexivity.
Defined.

Lemma no_tab_after_removal s : includes tab (replaceAll tab (lit "") s) = false.
Proof.
  change tab with [9%N]. change (lit "") with (@nil N).
  rewrite replaceAll_char.
  destruct (includes [9%N] _) eqn:E; [|done].
  apply includes_spec in E as (b & a & E).
  assert (9%N ∈ filter (fun x : N => x <> 9%N) s) as Hin
    by (rewrite E; apply elem_of_app; right; apply list_elem_of_here).
  apply list_elem_of_filter in Hin as [? _]. done.
Qed.

Lemma paired_elem a rows :
  a ∈ paired rows ->
  exists elem,
    elem ∈ rows
    /\ (a = assignmentRow elem
        \/ exists note, a = setFeedback (trim (DetailRow.text note))
                              (assignmentRow elem)).
Proof.
  induction rows as [rows IH] using (induction_ltof1 _ length).
  unfold ltof in IH. destruct rows as [|elem [|note rows]].
  - by intros ?%elem_of_nil.
  - intros ->%list_elem_of_singleton. exists elem.
    split; [apply list_elem_of_here|eauto].
  - cbn [paired]. intros [->|Hin]%elem_of_cons.
    + exists elem. split; [apply list_elem_of_here|eauto].
    + destruct (IH rows ltac:(simpl; lia) Hin) as (e & He & H).
      exists e. split; [by do 2 apply list_elem_of_further|done].
Qed.

(** X15.  The text fields of the assignments are clean: a name holds no tab
    and a feedback, when set, has no white space at either end. *)
Theorem assignment_texts_clean rows assignments a :
  parseAssignments rows = Normal assignments ->
  a ∈ assignments ->
  includes tab (Assignment.name a) = false
  /\ forall note, Assignment.feedback a = Some note -> trim note = note.
Proof.
  rewrite parseAssignments_paired. intros [= <-] Hin.
  apply paired_elem in Hin as (elem & _ & [->|[note ->]]).
  - rewrite assignmentRow_name, assignmentRow_feedback.
    split; [apply no_tab_after_removal|done].
  - cbn [setFeedback Assignment.name Assignment.feedback].
    rewrite assignmentRow_name. split; [apply no_tab_after_removal|].
    intros ? [= <-]. apply trim_idemp.
Qed.

Lemma assignment_texts_clean_witness :
  exists assignments a,
    parseAssignments (DetailPage.rows Sample.detail) = Normal assignments
    /\ assignments !! 0 = Some a
    /\ includes tab (Assignment.name a) = false
    /\ forall note, Assignment.feedback a = Some note -> trim note = note.
Proof.
  destruct (parseAssignments (DetailPage.rows Sample.detail))
    as [[|a assignments]|e] eqn:E; [discriminate E| |discriminate E].
  exists (a :: assignments), a. split; [done|]. split; [done|].
  apply (assignment_texts_clean (DetailPage.rows Sample.detail)
           (a :: assignments) a E).
  apply list_elem_of_here.
Defined.

End MoreAssignmentFacts.

Section MoreWeightFacts.
Import JsString JsNumber.

(** X16.  The triple of a category can be read exactly when the row that
    starts with a "Final" cell has at least three cells, or another row has
    at least four: the first cell of an ordinary row is its label.  A
    category with exactly three cells and no "Final" label is left out. *)
Theorem weight_entry_read_iff weights :
  (exists e, weightEntry weights = Normal e)
  <-> (isFinalRow weights = true /\ 3 <= length weights)
      \/ (isFinalRow weights = false /\ 4 <= length weights).
Proof.
  unfold weightEntry. destruct (isFinalRow weights) eqn:Hf.
  - destruct weights as [|w0 [|w1 [|w2 weights]]]; cbn;
      (split;
       [intros [e E]; first [discriminate E | left; split; [done|cbn; lia]]
       |intros [[_ H]|[H _]];
        first [discriminate H | cbn in H; lia | eauto]]).
  - destruct weights as [|w0 [|w1 [|w2 [|w3 weights]]]]; cbn;
      (split;
       [intros [e E]; first [discriminate E | right; split; [done|cbn; lia]]
       |intros [[H _]|[_ H]];
        first [discriminate H | cbn in H; lia | eauto]]).
Qed.

Lemma weight_entry_read_iff_witness :
  exists e,
    weightEntry [lit "Knowledge/Understanding"; lit "25%"; lit "17.5%"; lit "80%"]
    = Normal e.
Proof.
  apply (proj2 (weight_entry_read_iff
                  [lit "Knowledge/Understanding"; lit "25%"; lit "17.5%";
                   lit "80%"])).
  right. split; [reflexivity|simpl; lia].
Defined.

(** X17.  What the triple holds.  For a row whose first cell contains
    "Final" the weight is 0 whatever that cell says, and the other two
    values come from the second and third cells; for any other row the
    three values come from the second, third and fourth cells.  One "%" is
    removed from a cell before it is read. *)
Theorem weight_entry_values weights e :
  weightEntry weights = Normal e ->
  let cell i :=
    parseFloat (replace (lit "%") (lit "") (default [] (weights !! i))) in
  if isFinalRow weights then
    e = Weights.mk (ofN 0) (cell 1) (cell 2)
  else e = Weights.mk (cell 1) (cell 2) (cell 3).
Proof.
  unfold weightEntry. destruct (isFinalRow weights) eqn:Hf.
  - destruct weights as [|w0 [|w1 [|w2 weights]]]; simpl; try done.
    by intros [= <-].
  - destruct weights as [|w0 [|w1 [|w2 [|w3 weights]]]]; simpl; try done.
    by intros [= <-].
Qed.

Lemma weight_entry_values_witness :
  Weights.mk (ofN 0) (Decimal false 30 0) (Decimal false 90 0)
  = Weights.mk (ofN 0)
      (parseFloat (replace (lit "%") (lit "") (lit "30%")))
      (parseFloat (replace (lit "%") (lit "") (lit "90%"))).
Proof.
  apply (weight_entry_values [lit "Final/Culminating"; lit "30%"; lit "90%"]
           (Weights.mk (ofN 0) (Decimal false 30 0) (Decimal false 90 0))).
  reflexivity.
Defined.

(** X18.  The weight table holds a category exactly when its triple could
    be read, and then holds that triple; it never holds a key outside the
    six categories. *)
Theorem weight_table_lookup page key e :
  parseWeightTable page !! key = Some e
  <-> exists color,
        (key, color) ∈ weightColors
        /\ weightEntry (collectWeights page color) = Normal e.
Proof.
  destruct (decide (key ∈ weightColors.*1)) as [Hin|Hout].
  - apply list_elem_of_fmap in Hin as ([key' color] & -> & Hin). simpl.
    rewrite (parseWeightTable_lookup _ _ color Hin). unfold expectedWeights.
    split.
    + intros H. exists color. split; [done|].
      destruct (weightEntry _); congruence.
    + intros (color' & Hin' & H).
      assert (color' = color) as ->.
      { eapply (fst_unique weightColors); eauto using weightColors_NoDup. }
      by rewrite H.
  - unfold parseWeightTable. rewrite foldl_weightStep_other by done.
    rewrite lookup_empty. split; [done|].
    intros (color & Hin & _). destruct Hout.
    apply list_elem_of_fmap. by exists (key, color).
Qed.

Lemma weight_table_lookup_witness :
  parseWeightTable Sample.detail !! "F"%string
  = Some (Weights.mk (ofN 0) (Decimal false 30 0) (Decimal false 90 0)).
Proof.
  apply (proj2 (weight_table_lookup Sample.detail "F" _)).
  exists "cccccc"%string. split; [|reflexivity].
  apply (bool_decide_unpack _). reflexivity.
Defined.

End MoreWeightFacts.

Section MoreMarkFacts.
Import JsString JsNumber.

(** X28.  Reading a cell text raises exactly when the text has no " / " or no
    "weight="; the error is a [TypeError], and the placeholder is what is
    stored then. *)
Theorem mark_raises_iff category e :
  parseMark category = Throw e
  <-> e = TypeError
      /\ (includes (lit " / ") category = false
          \/ includes (lit "weight=") category = false).
Proof.
  split; [apply parseMark_Throw_inv|].
  intros [-> H]. by apply parseMark_Throw.
Qed.

Lemma mark_raises_iff_witness : parseMark (lit "8 / 10") = Throw TypeError.
Proof.
  apply (mark_raises_iff (lit "8 / 10") TypeError).
  split; [reflexivity|]. right. reflexivity.
Defined.



Lemma revised_weightStep_other page table item key :
  item.1 <> key -> Revised.weightStep page table item !! key = table !! key.
Proof. intros H. unfold Revised.weightStep. by rewrite lookup_insert_ne. Qed.

Lemma revised_foldl_weightStep page items table key color :
  NoDup items.*1 -> (key, color) ∈ items ->
  foldl (Revised.weightStep page) table items !! key
  = Some (Revised.weightEntry (collectWeights page color)).
Proof.
  revert table. induction items as [|item items IH]; intros table Hnd Hin.
  - by apply elem_of_nil in Hin.
  - csimpl in *. apply NoDup_cons in Hnd as [Hfresh Hnd].
    apply elem_of_cons in Hin as [<- | Hin]; [|by apply IH].
    assert (forall t, foldl (Revised.weightStep page) t items !! key = t !! key)
      as ->.
    { clear IH Hnd. induction items as [|i items IH]; intros t; [done|].
      csimpl in *. apply not_elem_of_cons in Hfresh as [? ?].
      rewrite IH by done. by apply revised_weightStep_other. }
    unfold Revised.weightStep. simpl. by rewrite lookup_insert_eq.
Qed.

(** X30.  The weight table of the revised handler always holds the six
    categories: a cell that is missing (or empty once its "%" is removed)
    counts as "0", so a category without any cell gets the triple
    0, 0, 0. *)
Theorem revised_weight_table_total page key color :
  (key, color) ∈ weightColors ->
  Revised.parseWeightTable page !! key
  = Some (Revised.weightEntry (collectWeights page color))
  /\ (collectWeights page color = [] ->
      Revised.weightEntry (collectWeights page color)
      = Weights.mk (ofN 0) (ofN 0) (ofN 0)).
Proof.
  intros Hin. split.
  - unfold Revised.parseWeightTable.
    by apply revised_foldl_weightStep; [apply weightColors_NoDup|].
  - by intros ->.
Qed.

Lemma revised_weight_table_total_witness :
  Revised.parseWeightTable Sample.detail !! "T"%string
  = Some (Weights.mk (ofN 0) (ofN 0) (ofN 0)).
Proof.
  destruct (revised_weight_table_total Sample.detail "T" "c0fea4") as [-> H].
  - apply (bool_decide_unpack _). reflexivity.
  - by rewrite H.
Defined.

End MoreMarkFacts.

(* ===================================================================== *)
(** * More about the handler                                            *)
(* ===================================================================== *)

Section MoreHandlerFacts.
Import JsString.
Variable loadCourseList : jsstring -> list ListRow.t.
Variable loadDetail : jsstring -> DetailPage.t.
Variable Portal : Type.
Variable cookieFetch : Portal -> Fetch.t -> Portal * completion jsstring.

Abbreviation session := (session Portal).
Abbreviation fetchText := (fetchText Portal cookieFetch).
Abbreviation courseDetail := (courseDetail loadDetail Portal cookieFetch).
Abbreviation detailLoop := (detailLoop loadDetail Portal cookieFetch).
Abbreviation coursePages := (coursePages loadCourseList loadDetail Portal cookieFetch).
Abbreviation fetchGrades := (fetchGrades loadCourseList loadDetail Portal cookieFetch).
Abbreviation handler := (handler loadCourseList loadDetail Portal cookieFetch).

Lemma fetchText_Throw q (s s' : session) e :
  fetchText q s = (s', Throw e) -> rejectedLast cookieFetch e s'.
Proof.
  unfold fetchText. destruct (cookieFetch (portal _ s) q) as [p r] eqn:E.
  intros [= <- ->]. exists q, (portal _ s), p. split; [done|].
  cbn [requests]. by rewrite last_snoc.
Qed.

Lemma detailLoop_Throw n : forall i courses (s s' : session) e,
  i + n = length courses ->
  detailLoop n i courses s = (s', Throw e) -> rejectedLast cookieFetch e s'.
Proof.
  induction n as [|n IH]; intros i courses s s' e Hlen; [done|].
  cbn [detailLoop]. unfold courseDetail.
  destruct (lookup_lt_is_Some_2 courses i) as [c ->]; [lia|].
  destruct (fetchText (post (detailUrl c)) s) as [s1 [courseText|e1]] eqn:E.
  - rewrite parseAssignments_paired. apply IH. rewrite length_insert. lia.
  - intros [= <- <-]. by apply fetchText_Throw in E.
Qed.

Lemma detailLoop_extends n : forall i courses (s s' : session) r,
  detailLoop n i courses s = (s', r) ->
  exists more, requests _ s' = requests _ s ++ more.
Proof.
  induction n as [|n IH]; intros i courses s s' r.
  - intros [= <- _]. exists []. by rewrite app_nil_r.
  - cbn [detailLoop]. unfold courseDetail.
    destruct (courses !! i) as [c|].
    + destruct (fetchText (post (detailUrl c)) s) as [s1 r1] eqn:E.
      apply fetchText_requests in E.
      destruct r1 as [courseText|e1].
      * rewrite parseAssignments_paired. intros (more & ->)%IH.
        rewrite E, <- app_assoc. eauto.
      * intros [= <- _]. eauto.
    + intros [= <- _]. exists []. by rewrite app_nil_r.
Qed.

(** The handler, past its two tests of the request. *)
Lemma handler_accepted req p :
  missing (Request.username req) = false ->
  missing (Request.password req) = false ->
  Request.method req = lit "POST" ->
  handler req p
  = let '(s', r) :=
      fetchGrades (toString (Request.username req))
                  (toString (Request.password req)) (Session Portal p []) in
    (s', Some (tryCatch r (fun e => Reply 500 (ErrorMessage e)))).
Proof.
  intros Hu Hp Hm. unfold handler. rewrite Hu, Hp. simpl.
  by rewrite bool_decide_eq_true_2.
Qed.

(** What the body of the outer [try] comes to, case by case. *)
Lemma fetchGrades_cases username password (s s' : session) r :
  fetchGrades username password s = (s', r) ->
  let login := post (loginUrl username password) in
  (exists more, requests _ s' = requests _ s ++ login :: more)
  /\ match r with
     | Throw e => rejectedLast cookieFetch e s'
     | Normal reply =>
         exists p1 textData,
           cookieFetch (portal _ s) login = (p1, Normal textData)
           /\ ((status reply <> 200 /\ status reply <> 500
                /\ requests _ s' = requests _ s ++ [login])
               \/ (includes (lit "Invalid Login") textData = false
                   /\ includes (lit "Access Denied") textData = false
                   /\ includes (lit "Session Expired") textData = false
                   /\ exists courses,
                        reply = Reply 200 (CoursesBody courses)
                        /\ requests _ s'
                           = requests _ s
                             ++ login
                                :: ((post ∘ detailUrl)
                                      <$> extractCourses (loadCourseList textData))
                        /\ summary <$> courses
                           = extractCourses (loadCourseList textData)))
     end.
Proof.
  intros E login. unfold fetchGrades in E. fold login in E.
  destruct (fetchText login s) as [s1 r1] eqn:E1.
  pose proof (fetchText_requests _ _ _ _ _ _ E1) as Hreq.
  destruct r1 as [textData|e].
  - assert (exists p1, cookieFetch (portal _ s) login = (p1, Normal textData))
      as [p1 Hp1].
    { unfold fetchText in E1. destruct (cookieFetch _ _) as [p1 r1].
      injection E1 as _ ->. eauto. }
    destruct (includes (lit "Invalid Login") textData) eqn:H1.
    { injection E as <- <-. split; [exists []; by rewrite Hreq|].
      exists p1, textData. split; [done|]. left. cbn. by rewrite Hreq. }
    destruct (includes (lit "Access Denied") textData) eqn:H2.
    { injection E as <- <-. split; [exists []; by rewrite Hreq|].
      exists p1, textData. split; [done|]. left. cbn. by rewrite Hreq. }
    destruct (includes (lit "Session Expired") textData) eqn:H3.
    { injection E as <- <-. split; [exists []; by rewrite Hreq|].
      exists p1, textData. split; [done|]. left. cbn. by rewrite Hreq. }
    destruct (coursePages_spec loadCourseList loadDetail Portal cookieFetch
                textData s1) as (s2 & r2 & E2 & H).
    rewrite E in E2. injection E2 as <- <-.
    destruct H as [(courses & -> & Hr & Hs)|[e ->]].
    + rewrite Hreq, <- app_assoc in Hr. split; [eauto|].
      exists p1, textData. split; [done|]. right. do 3 (split; [done|]). eauto.
    + unfold coursePages in E.
      destruct (detailLoop _ 0 _ s1) as [s3 r3] eqn:E3.
      pose proof (detailLoop_extends _ _ _ _ _ _ E3) as [more Hm].
      destruct r3 as [?|e3]; [done|]. injection E as <- <-. split.
      * exists more. by rewrite Hm, Hreq, <- app_assoc.
      * by apply detailLoop_Throw in E3.
  - injection E as <- <-. split; [exists []; by rewrite Hreq|].
    by apply fetchText_Throw in E1.
Qed.


(** X20.  A reply 500 always reports a request that the portal rejected,
    and that request is the last one sent: the call stops there.  Nothing
    that goes wrong while a page is read (a malformed row, cell or table)
    ends in a 500. *)
Theorem failure_is_a_rejected_request req p s' reply :
  handler req p = (s', Some reply) ->
  status reply = 500 ->
  exists e, json reply = ErrorMessage e /\ rejectedLast cookieFetch e s'.
Proof.
  intros E H500.
  destruct (missing (Request.username req) || missing (Request.password req))
    eqn:Hm.
  { unfold handler in E. rewrite Hm in E. injection E as <- <-. done. }
  apply orb_false_elim in Hm as [Hu Hp].
  destruct (decide (Request.method req = lit "POST")) as [Hpost|Hpost].
  - rewrite handler_accepted in E by done.
    destruct (fetchGrades _ _ _) as [s1 r] eqn:E1. injection E as <- <-.
    apply fetchGrades_cases in E1 as [_ H].
    destruct r as [reply|e]; [|cbn; eauto].
    destruct H as (p1 & textData & _ & [(_ & Hn & _)|(_ & _ & _ & c & -> & _)]);
      done.
  - unfold handler in E. rewrite Hu, Hp in E. simpl in E.
    by rewrite bool_decide_eq_false_2 in E.
Qed.

(** X21.  A reply 200 means: the login answer held none of the three
    markers; after the login the handler asked for one page per course of
    the list extracted from that answer, in the order of the list; and the
    courses of the reply are those of the list, in the same order, with
    nothing but their assignments and weight tables changed. *)
Theorem success_reply req p s' courses :
  handler req p = (s', Some (Reply 200 (CoursesBody courses))) ->
  let login :=
    post (loginUrl (toString (Request.username req))
                   (toString (Request.password req))) in
  exists p1 textData,
    cookieFetch p login = (p1, Normal textData)
    /\ includes (lit "Invalid Login") textData = false
    /\ includes (lit "Access Denied") textData = false
    /\ includes (lit "Session Expired") textData = false
    /\ requests _ s'
       = login :: ((post ∘ detailUrl)
                     <$> extractCourses (loadCourseList textData))
    /\ summary <$> courses = extractCourses (loadCourseList textData).
Proof.
  intros E login.
  destruct (missing (Request.username req) || missing (Request.password req))
    eqn:Hm.
  { unfold handler in E. rewrite Hm in E. by injection E. }
  apply orb_false_elim in Hm as [Hu Hp].
  destruct (decide (Request.method req = lit "POST")) as [Hpost|Hpost].
  - rewrite handler_accepted in E by done.
    destruct (fetchGrades _ _ _) as [s1 r] eqn:E1. injection E as <- E.
    apply fetchGrades_cases in E1 as [_ H].
    destruct r as [reply|e]; [|done]. cbn in E. subst reply.
    destruct H as (p1 & textData & Hf
                   & [(Hn & _)|(H1 & H2 & H3 & c & [= <-] & Hr & Hs)]); [done|].
    exists p1, textData. done.
  - unfold handler in E. rewrite Hu, Hp in E. simpl in E.
    by rewrite bool_decide_eq_false_2 in E.
Qed.


End MoreHandlerFacts.

Section MoreSampleRuns.
Import JsString.


Lemma failure_is_a_rejected_request_witness :
  exists s' reply,
    handler Sample.loadCourseList Sample.loadDetail unit unreachable
      Sample.request tt = (s', Some reply)
    /\ status reply = 500
    /\ exists e, json reply = ErrorMessage e /\ rejectedLast unreachable e s'.
Proof.
  eexists _, _. split; [reflexivity|]. split; [reflexivity|].
  eapply (failure_is_a_rejected_request Sample.loadCourseList Sample.loadDetail
            unit unreachable Sample.request tt); reflexivity.
Defined.

Lemma success_reply_witness :
  exists s' courses p1 textData,
    handler Sample.loadCourseList Sample.loadDetail unit Sample.cookieFetch
      Sample.request tt = (s', Some (Reply 200 (CoursesBody courses)))
    /\ Sample.cookieFetch tt (post (loginUrl (lit "123456789") (lit "hunter2")))
       = (p1, Normal textData)
    /\ requests _ s'
       = post (loginUrl (lit "123456789") (lit "hunter2"))
         :: ((post ∘ detailUrl)
               <$> extractCourses (Sample.loadCourseList textData))
    /\ summary <$> courses = extractCourses (Sample.loadCourseList textData).
Proof.
  destruct (handler Sample.loadCourseList Sample.loadDetail unit
              Sample.cookieFetch Sample.request tt) as [s' reply] eqn:E.
  assert (exists courses, reply = Some (Reply 200 (CoursesBody courses)))
    as [courses ->].
  { vm_compute in E. injection E as _ <-. eauto. }
  destruct (success_reply Sample.loadCourseList Sample.loadDetail unit
              Sample.cookieFetch Sample.request tt s' courses E)
    as (p1 & textData & Hf & _ & _ & _ & Hr & Hs).
  exists s', courses, p1, textData. done.
Defined.


End MoreSampleRuns.

(* ===================================================================== *)
(** * The three copies of the handler                                   *)
(* ===================================================================== *)

Section MoreRevisedFacts.
Import JsString JsNumber.

Lemma numberRun_spec s :
  s = (Revised.numberRun s).1 ++ (Revised.numberRun s).2
  /\ Forall (fun c => Revised.isNumberChar c = true) (Revised.numberRun s).1
  /\ match (Revised.numberRun s).2 with
     | c :: _ => Revised.isNumberChar c = false
     | [] => True
     end.
Proof.
  induction s as [|c s IH]; [done|]. simpl.
  destruct (Revised.isNumberChar c) eqn:E; [|done].
  destruct (Revised.numberRun s) as [ds r]. simpl in *.
  destruct IH as (-> & ? & ?). split; [done|]. split; [|done].
  by constructor.
Qed.

Lemma numberRun_app g c post :
  Forall (fun c => Revised.isNumberChar c = true) g ->
  Revised.isNumberChar c = false ->
  Revised.numberRun (g ++ c :: post) = (g, c :: post).
Proof.
  intros Hg Hc. induction Hg as [|x g Hx _ IH]; simpl.
  - by rewrite Hc.
  - by rewrite Hx, IH.
Qed.

Lemma matchHere_Some token s g :
  Revised.matchHere token s = Some g ->
  exists post,
    s = token ++ g ++ lit "%" ++ post /\ g <> []
    /\ Forall (fun c => Revised.isNumberChar c = true) g.
Proof.
  unfold Revised.matchHere.
  destruct (startsWith token s) eqn:E; [|done].
  apply startsWith_drop in E.
  pose proof (numberRun_spec (drop (length token) s)) as (Hs & Hg & _).
  destruct (Revised.numberRun (drop (length token) s)) as [[|d run] rest];
    [done|].
  destruct rest as [|c rest]; [done|]. simpl in Hs, Hg.
  destruct c as [|c]; [done|].
  repeat (destruct c as [c|c|]; try done).
  intros [= <-]. exists rest. split; [|done].
  rewrite E at 1. by rewrite Hs.
Qed.

(** What the regular expression captures stands in the text between the
    token and a "%", and is a non-empty run of digits and dots. *)
Lemma matchNumber_Some token s g :
  Revised.matchNumber token s = Some g ->
  exists pre post,
    s = pre ++ token ++ g ++ lit "%" ++ post /\ g <> []
    /\ Forall (fun c => Revised.isNumberChar c = true) g.
Proof.
  induction s as [|c s IH]; simpl.
  - destruct (Revised.matchHere token []) eqn:E; [|done]. intros [= ->].
    apply matchHere_Some in E as (post & ? & ? & ?). by exists [], post.
  - destruct (Revised.matchHere token (c :: s)) eqn:E.
    + intros [= ->]. apply matchHere_Some in E as (post & ? & ? & ?).
      by exists [], post.
    + intros (pre & post & -> & ? & ?)%IH. by exists (c :: pre), post.
Qed.

(** X24.  What the revised [parseOverallMark] returns is either the sentinel
    with both flags off, or a number with the one flag of its banner; in
    the second case the number was read from a non-empty run of digits and
    dots that stands in the text (spaces removed) between the token of the
    banner and a "%". *)
Theorem revised_overall_sound mark :
  let cleaned := replaceAll (lit " ") (lit "") mark in
  let r := Revised.parseOverallMark mark in
  r = Overall.mk NA false false
  \/ exists token g pre post,
       cleaned = pre ++ token ++ g ++ lit "%" ++ post
       /\ g <> []
       /\ Forall (fun c => Revised.isNumberChar c = true) g
       /\ ((token = lit "FINALMARK:"
            /\ r = Overall.mk (Num (parseFloat g)) true false)
           \/ (token = lit "currentmark="
               /\ r = Overall.mk (Num (parseFloat g)) false false)
           \/ (token = lit "MIDTERMMARK:"
               /\ r = Overall.mk (Num (parseFloat g)) false true)).
Proof.
  intros cleaned r. unfold r, Revised.parseOverallMark. fold cleaned.
  destruct (includes (lit "FINAL") cleaned).
  { destruct (Revised.matchNumber _ cleaned) as [g|] eqn:E; [|by left].
    apply matchNumber_Some in E as (pre & post & ? & ? & ?).
    right. exists (lit "FINALMARK:"), g, pre, post. eauto 10. }
  destruct (includes (lit "currentmark") cleaned).
  { destruct (Revised.matchNumber _ cleaned) as [g|] eqn:E; [|by left].
    apply matchNumber_Some in E as (pre & post & ? & ? & ?).
    right. exists (lit "currentmark="), g, pre, post. eauto 10. }
  destruct (includes (lit "MIDTERM") cleaned); [|by left].
  destruct (Revised.matchNumber _ cleaned) as [g|] eqn:E; [|by left].
  apply matchNumber_Some in E as (pre & post & ? & ? & ?).
  right. exists (lit "MIDTERMMARK:"), g, pre, post. eauto 10.
Qed.

End MoreRevisedFacts.

Section CopiesAgree.
Import JsString JsNumber.

Lemma cut_char_first c g r : c ∉ g -> cut [c] (g ++ c :: r) = Some (g, r).
Proof.
  induction g as [|x g IH]; intros Hc; rewrite cut_unfold; simpl.
  - by rewrite N.eqb_refl.
  - apply not_elem_of_cons in Hc as [Hx Hg].
    destruct (c =? x)%N eqn:E; [by apply N.eqb_eq in E|]. simpl.
    by rewrite IH.
Qed.

Lemma percent_not_in_number g :
  Forall (fun c => Revised.isNumberChar c = true) g -> 37%N ∉ g.
Proof.
  intros Hg Hin. rewrite Forall_forall in Hg. by apply Hg in Hin.
Qed.

Lemma matchNumber_unfold token s :
  Revised.matchNumber token s
  = match Revised.matchHere token s with
    | Some g => Some g
    | None => match s with
              | [] => None
              | _ :: s' => Revised.matchNumber token s'
              end
    end.
Proof. by destruct s. Qed.

(** The positional split of the first handler reads the run. *)
Lemma numberAfter_numberFollows token t0 g s :
  head token = Some t0 ->
  Revised.isNumberChar t0 = false -> t0 <> 37%N ->
  numberFollows token g s ->
  numberAfter token s = Normal (parseFloat g).
Proof.
  destruct token as [|t token]; [done|]. intros [= ->].
  intros Ht0 Ht37 (pre & post & Hs & Hfirst & Hne & Hg).
  rewrite (numberAfter_cut _ _ pre (g ++ lit "%" ++ post))
    by (done || by apply cut_of_first).
  do 2 f_equal.
  assert (exists rest,
            before (t0 :: token) (g ++ lit "%" ++ post) = g ++ 37%N :: rest)
    as [rest ->].
  { unfold before.
    destruct (cut (t0 :: token) (g ++ lit "%" ++ post)) as [[b a]|] eqn:E;
      [|by exists post].
    apply cut_Some in E.
    assert (length g < length b) as Hlen.
    { destruct (decide (length g < length b)) as [|Hn]; [done|]. exfalso.
      assert ((g ++ lit "%" ++ post) !! length b = Some t0) as Hl
        by (rewrite E; apply list_lookup_middle; done).
      destruct (decide (length b < length g)) as [Hlt|Hge].
      - rewrite lookup_app_l in Hl by done.
        rewrite Forall_lookup in Hg. apply Hg in Hl. congruence.
      - assert (length b = length g) as Heq by lia. rewrite Heq in Hl.
        change (lit "%" ++ post) with (37%N :: post) in Hl.
        rewrite list_lookup_middle in Hl by done. congruence. }
    exists (take (length b - length g - 1) post).
    assert (b = take (length b) (g ++ lit "%" ++ post)) as Hb
      by (rewrite E; by rewrite take_app_length).
    rewrite Hb at 1. rewrite take_app_ge by lia. f_equal.
    destruct (length b - length g) as [|k] eqn:Hk; [lia|]. cbn.
    f_equal. f_equal. lia. }
  unfold before. change (lit "%") with [37%N].
  by rewrite cut_char_first by by apply percent_not_in_number.
Qed.

(** The regular expression of the revised handler captures the run. *)
Lemma matchNumber_numberFollows token g s :
  token <> [] -> numberFollows token g s ->
  Revised.matchNumber token s = Some g.
Proof.
  intros Ht (pre & post & Hs & Hfirst & Hne & Hg). revert s Hs Hfirst.
  induction pre as [|x pre IH]; intros s Hs Hfirst;
    rewrite matchNumber_unfold, Hs.
  - unfold Revised.matchHere. cbn [app].
    rewrite startsWith_app, drop_app_length.
    change (lit "%" ++ post) with (37%N :: post).
    rewrite numberRun_app by done. by destruct g.
  - destruct (Revised.matchHere token ((x :: pre) ++ _)) as [g'|] eqn:E.
    + apply matchHere_Some in E as (post' & E' & _).
      rewrite <- Hs in E'. specialize (Hfirst [] _ E'). simpl in Hfirst. lia.
    + cbn [app]. apply IH; [done|].
      intros pre' after' Hs'. specialize (Hfirst (x :: pre') after').
      rewrite Hs in Hfirst. cbn [app] in Hfirst. rewrite Hs' in Hfirst.
      specialize (Hfirst eq_refl). simpl in Hfirst. lia.
Qed.

(** X25.  On a well-formed banner the two copies of [parseOverallMark]
    agree.  If, in the text with its spaces removed, the first occurrence
    of the token of the banner that is consulted ("FINALMARK:" when "FINAL"
    occurs, else "currentmark=" when "currentmark" occurs, else
    "MIDTERMMARK:" when "MIDTERM" occurs) is followed by digits and dots
    and then "%", the first handler returns what the revised one returns;
    they also agree when no banner is there. *)
Theorem copies_agree mark :
  let cleaned := replaceAll (lit " ") (lit "") mark in
  let token :=
    if includes (lit "FINAL") cleaned then lit "FINALMARK:"
    else if includes (lit "currentmark") cleaned then lit "currentmark="
    else lit "MIDTERMMARK:" in
  (includes (lit "FINAL") cleaned = false
   /\ includes (lit "currentmark") cleaned = false
   /\ includes (lit "MIDTERM") cleaned = false)
  \/ (exists g, numberFollows token g cleaned) ->
  parseOverallMark mark = Normal (Revised.parseOverallMark mark).
Proof.
  intros cleaned token H.
  unfold parseOverallMark, Revised.parseOverallMark. fold cleaned.
  destruct H as [(-> & -> & ->)|[g H]]; [done|]. unfold token in H.
  destruct (includes (lit "FINAL") cleaned).
  { rewrite (numberAfter_numberFollows _ 70%N g),
      (matchNumber_numberFollows _ g); done. }
  destruct (includes (lit "currentmark") cleaned).
  { rewrite (numberAfter_numberFollows _ 99%N g),
      (matchNumber_numberFollows _ g); done. }
  assert (includes (lit "MIDTERM") cleaned = true) as ->.
  { destruct H as (pre & post & -> & _). apply includes_spec.
    exists pre, (lit "MARK:" ++ g ++ lit "%" ++ post). done. }
  rewrite (numberAfter_numberFollows _ 77%N g),
    (matchNumber_numberFollows _ g); done.
Qed.

Lemma copies_agree_witness :
  parseOverallMark (lit "FINAL MARK: 87.5% current mark = 72.3%")
  = Normal (Revised.parseOverallMark
              (lit "FINAL MARK: 87.5% current mark = 72.3%")).
Proof.
  apply (copies_agree (lit "FINAL MARK: 87.5% current mark = 72.3%")).
  right. exists (lit "87.5"), (lit ""), (lit "currentmark=72.3%").
  split; [reflexivity|]. split; [intros; simpl; lia|].
  split; [discriminate|]. repeat constructor.
Defined.

End CopiesAgree.

Section OriginalFacts.
Import JsString JsNumber.

(** X26.  The loop of the original handler and the [map]/[filter] chain
    that replaced it collect the same lines. *)
Theorem filterLines_compact course : Original.filterLines course = compact course.
Proof.
  unfold Original.filterLines, compact.
  enough (forall acc,
            foldl (fun filteredCourse item =>
                     let item := trim item in
                     if bool_decide (0 < length item)
                     then filteredCourse ++ [item] else filteredCourse)
                  acc course
            = acc ++ filter (fun item : jsstring => 0 < length item)
                            (trim <$> course)) as H by apply H.
  induction course as [|item course IH]; intros acc; csimpl.
  - by rewrite app_nil_r.
  - rewrite IH, filter_cons. case_bool_decide.
    + rewrite decide_True by done. by rewrite <- app_assoc.
    + by rewrite decide_False by done.
Qed.

(** X27.  The guard [?.] added to the test of the first weight cell changes
    nothing: with no cell at all the original raises one read earlier, and
    the category is left out either way. *)
Theorem weightStep_unchanged page table item :
  Original.weightStep page table item = weightStep page table item.
Proof.
  unfold Original.weightStep, weightStep, Original.weightEntry, weightEntry,
    isFinalRow.
  destruct (collectWeights page item.2) as [|w0 weights]; [done|]. done.
Qed.

End OriginalFacts.

Section RevisedRun.
Import JsString.

Lemma revised_skips_unlinked_witness :
  exists s' courses,
    Revised.coursePages Sample.loadCourseList Sample.loadDetail unit
      Sample.cookieFetch (lit "<html></html>") (Session unit tt [])
    = (s', Normal (Reply 200 (CoursesBody courses)))
    /\ requests _ s' = []
    /\ Course.assignments <$> courses = [[]].
Proof.
  destruct (Revised.coursePages Sample.loadCourseList Sample.loadDetail unit
              Sample.cookieFetch (lit "<html></html>") (Session unit tt []))
    as [s' r] eqn:E.
  assert (exists courses, r = Normal (Reply 200 (CoursesBody courses)))
    as [courses ->] by (vm_compute in E; injection E as _ <-; eauto).
  exists s', courses. split; [done|].
  destruct (revised_skips_unlinked Sample.loadCourseList Sample.loadDetail unit
              Sample.cookieFetch (lit "<html></html>") (Session unit tt [])
              s' courses E) as [Hreq _].
  split; [exact Hreq|]. vm_compute in E. by injection E as _ <-.
Defined.

End RevisedRun.
